(** * KagazKit core: file validators and PDF actions

    A shallow embedding of [kagazkit/core/validators.py] and
    [kagazkit/core/actions.py].

    - Python [str] values are [string]s, [bytes] values are [list byte].
    - [pathlib.Path] values are records of a root and the list of the
      components below it (POSIX flavour). Paths are compared as pathlib
      compares them, component by component: symbolic links and [..] are
      not resolved.
    - The file system is a finite map from paths to nodes; every function
      that touches it lives in the monad [M] of state and exceptions, in
      which the state survives a raised exception, as it does in Python.
    - A file name given as a [str] reaches the operating system as it is
      written; only [Path] normalises it.
    - The names the operating system refuses to look up (too long, below
      a directory that may not be searched) are the interface [Platform].
      Calls that create a file or a directory are described for the names
      the system accepts.
    - PyPDF2 and Pillow are not part of the repository: they are the
      interface [Backend], over which every definition is generic. *)

From Stdlib Require Import String Ascii ZArith List DecimalString DecimalNat Lia.
From Stdlib.Strings Require Import Byte.
From stdpp Require Import base gmap strings list.

Local Open Scope string_scope.
Local Open Scope list_scope.

(** ** Strings and bytes *)

Definition is_upper (c : ascii) : bool :=
  let n := nat_of_ascii c in Nat.leb 65 n && Nat.leb n 90.

Definition is_lower (c : ascii) : bool :=
  let n := nat_of_ascii c in Nat.leb 97 n && Nat.leb n 122.

Definition lower_ascii (c : ascii) : ascii :=
  if is_upper c then ascii_of_nat (nat_of_ascii c + 32) else c.

Definition upper_ascii (c : ascii) : ascii :=
  if is_lower c then ascii_of_nat (nat_of_ascii c - 32) else c.

Fixpoint str_map (f : ascii -> ascii) (s : string) : string :=
  match s with
  | EmptyString => EmptyString
  | String c s' => String (f c) (str_map f s')
  end.

(** [s.lower()] and [s.upper()], on the ASCII letters; a character that
    is not ASCII is left as it is. No such character has a lowercase form
    made of the letters of [png], [jpg] and [jpeg], so that the extensions
    [validate_image] accepts are those the code accepts. *)
Definition lower (s : string) : string := str_map lower_ascii s.
Definition upper (s : string) : string := str_map upper_ascii s.

(** Every character of [s] is ASCII; [lower s] and [upper s] are then the
    strings Python gives. *)
Fixpoint ascii_only (s : string) : bool :=
  match s with
  | EmptyString => true
  | String c s' => Nat.ltb (nat_of_ascii c) 128 && ascii_only s'
  end.

(** [s.lstrip(c)] for a one-character argument. *)
Fixpoint lstrip (c : ascii) (s : string) : string :=
  match s with
  | EmptyString => EmptyString
  | String a s' => if Ascii.eqb a c then lstrip c s' else s
  end.

(** [s.rfind(c)]; [None] stands for Python's [-1]. *)
Fixpoint rfind (c : ascii) (s : string) : option nat :=
  match s with
  | EmptyString => None
  | String a s' =>
      match rfind c s' with
      | Some i => Some (S i)
      | None => if Ascii.eqb a c then Some 0 else None
      end
  end.

(** [s[:n]] and [s[n:]]. *)
Fixpoint str_take (n : nat) (s : string) : string :=
  match n, s with
  | S n', String c s' => String c (str_take n' s')
  | _, _ => EmptyString
  end.

Fixpoint str_drop (n : nat) (s : string) : string :=
  match n, s with
  | S n', String _ s' => str_drop n' s'
  | _, _ => s
  end.

(** [sep.join(l)]. *)
Fixpoint join (sep : string) (l : list string) : string :=
  match l with
  | [] => EmptyString
  | [x] => x
  | x :: rest => x +:+ sep +:+ join sep rest
  end.

(** [s.split('/')]: never empty, one more piece than there are slashes. *)
Fixpoint split_sep (s : string) : list string :=
  match s with
  | EmptyString => [EmptyString]
  | String c s' =>
      if Ascii.eqb c "/" then EmptyString :: split_sep s'
      else match split_sep s' with
           | [] => [String c EmptyString]
           | x :: xs => String c x :: xs
           end
  end.

(** [s * n]. *)
Fixpoint str_mul (s : string) (n : nat) : string :=
  match n with
  | 0 => EmptyString
  | S n' => s +:+ str_mul s n'
  end.

(** [str(n)] for a non-negative integer, as an f-string prints it. *)
Definition str_of_nat (n : nat) : string :=
  NilZero.string_of_uint (Nat.to_uint n).

(** [header.startswith(magic)] on bytes. *)
Fixpoint startswith (s pre : list byte) : bool :=
  match pre, s with
  | [], _ => true
  | b :: pre', c :: s' => Byte.eqb b c && startswith s' pre'
  | _ :: _, [] => false
  end.

(** ** pathlib.Path *)

(** A path is its root ([""] for a relative path, ["/"] or ["//"]) and the
    components below the root. *)
Record path := mkPath { root : string; parts : list string }.

#[global] Instance path_eq_dec : EqDecision path.
Proof. solve_decision. Defined.

#[global] Instance path_countable : Countable path.
Proof.
  refine (inj_countable' (fun p => (root p, parts p))
                         (fun rp => mkPath rp.1 rp.2) _).
  intros []; reflexivity.
Defined.

(** The root of a POSIX path string, as [splitroot] of pathlib finds it:
    exactly two leading slashes are kept, any other number of them is one
    slash. *)
Definition splitroot (part : string) : string :=
  match part with
  | String c _ =>
      if Ascii.eqb c "/" then
        if Nat.eqb (String.length part - String.length (lstrip "/" part)) 2
        then "//" else "/"
      else ""
  | EmptyString => ""
  end.

(** A component survives parsing when it is neither empty nor [.]. *)
Definition keeps (x : string) : bool :=
  negb (String.eqb x "") && negb (String.eqb x ".").

(** [Path(s)] for a string [s]. *)
Definition parse_path (s : string) : path :=
  mkPath (splitroot s) (List.filter keeps (split_sep s)).

(** [str(p)]. *)
Definition str (p : path) : string :=
  match parts p with
  | [] => if String.eqb (root p) "" then "." else root p
  | ps => root p +:+ join "/" ps
  end.

(** [p.name]: the last component, [""] when there is none. *)
Definition name (p : path) : string := List.last (parts p) "".

(** [p.parent]: the path without its last component; a path without
    components is its own parent. *)
Definition parent (p : path) : path :=
  mkPath (root p) (List.removelast (parts p)).

(** [p.suffix]. *)
Definition suffix (p : path) : string :=
  let nm := name p in
  match rfind "." nm with
  | Some i =>
      if Nat.ltb 0 i && Nat.ltb i (String.length nm - 1)
      then str_drop i nm else ""
  | None => ""
  end.

(** [p.stem]. *)
Definition stem (p : path) : string :=
  let nm := name p in
  match rfind "." nm with
  | Some i =>
      if Nat.ltb 0 i && Nat.ltb i (String.length nm - 1)
      then str_take i nm else nm
  | None => nm
  end.

(** [p / s] for a string [s]: an absolute right operand replaces [p]. *)
Definition joinpath (p : path) (s : string) : path :=
  let q := parse_path s in
  if String.eqb (root q) "" then mkPath (root p) (parts p ++ parts q)
  else q.

(** An argument of type [Union[str, Path]]. *)
Inductive pathlike :=
| PStr (s : string)
| PPath (p : path).

(** [Path(x)]. *)
Definition Path (x : pathlike) : path :=
  match x with
  | PStr s => parse_path s
  | PPath p => p
  end.

(** [f"{x}"], that is [str(x)]. *)
Definition fmt (x : pathlike) : string :=
  match x with
  | PStr s => s
  | PPath p => str p
  end.

(** ** Exceptions *)

Inductive oserror :=
| EFileNotFound      (* FileNotFoundError *)
| EFileExists        (* FileExistsError *)
| ENotADirectory     (* NotADirectoryError *)
| EIsADirectory      (* IsADirectoryError *)
| EOther.            (* PermissionError and every other OSError *)

(** Every constructor is a subclass of [Exception]; the argument [msg] is
    what [str(e)] gives. For an [OSError] it is the message of the system
    followed by the file name, without the error number and the quotes
    that Python prints around the name. *)
Inductive exn :=
| FileValidationError (msg : string)
| PDFActionError (msg : string)
| OSError (kind : oserror) (msg : string)
| KeyError (msg : string)
| IndexError (msg : string)
| LibraryError (msg : string).   (* raised inside PyPDF2 or Pillow *)

Definition str_exn (e : exn) : string :=
  match e with
  | FileValidationError m | PDFActionError m | OSError _ m
  | KeyError m | IndexError m | LibraryError m => m
  end.

Inductive outcome (A : Type) :=
| Return (a : A)
| Raise (e : exn).
Arguments Return {A} a.
Arguments Raise {A} e.

(** ** The file system *)

(** A regular file has its bytes and, when [read_error] is [Some msg],
    cannot be opened for reading: [open(p, 'rb')] raises [OSError(msg)]. *)
Inductive node :=
| Dir
| File (content : list byte) (read_error : option string).

Abbreviation fs := (gmap path node).

(** What is at [p]: the path without components ([.], [/]) is always a
    directory. *)
Definition stat (s : fs) (p : path) : option node :=
  match parts p with
  | [] => Some Dir
  | _ => s !! p
  end.

(** ** The monad of file-system state and exceptions *)

Definition M (A : Type) : Type := fs -> fs * outcome A.

Definition ret {A} (a : A) : M A := fun s => (s, Return a).

Definition bind {A B} (m : M A) (f : A -> M B) : M B := fun s =>
  match m s with
  | (s', Return a) => f a s'
  | (s', Raise e) => (s', Raise e)
  end.

Declare Scope py_scope.
Delimit Scope py_scope with py.
Notation "x <- m ;; k" := (bind m (fun x => k))
  (at level 100, m at next level, k at level 200, right associativity) : py_scope.
Notation "m ;; k" := (bind m (fun _ => k))
  (at level 100, k at level 200, right associativity) : py_scope.
Local Open Scope py_scope.

Definition raise {A} (e : exn) : M A := fun s => (s, Raise e).

(** [try: body except ...: handler]. The handler says which exceptions it
    catches by returning [Some]. *)
Definition try_except {A} (body : M A) (handler : exn -> option (M A)) : M A :=
  fun s =>
    match body s with
    | (s', Raise e) =>
        match handler e with
        | Some h => h s'
        | None => (s', Raise e)
        end
    | r => r
    end.

(** [except FileValidationError as e]. *)
Definition except_FileValidationError {A} (h : exn -> M A) (e : exn) : option (M A) :=
  match e with
  | FileValidationError _ => Some (h e)
  | _ => None
  end.

(** [except OSError as e]. *)
Definition except_OSError {A} (h : exn -> M A) (e : exn) : option (M A) :=
  match e with
  | OSError _ _ => Some (h e)
  | _ => None
  end.

(** [except Exception as e]. *)
Definition except_Exception {A} (h : exn -> M A) (e : exn) : option (M A) :=
  Some (h e).

(** A library call that touches no file. *)
Definition lift {A} (o : outcome A) : M A := fun s => (s, o).

(** ** The operating system

    [stat s p] is what the file system shows at [p]. A system call that
    looks a name up can fail for another reason than that nothing is
    there: the name is too long (ENAMETOOLONG), a directory on the way may
    not be searched (EACCES). Which names these are depends on the system
    and on permissions that no function here changes, so they are a
    parameter: [os_refuses f] is the text of the [OSError] of a lookup of
    the name [f], when the system refuses it. Nothing is shown at a name
    the system refuses, so that the answer counts where [stat] finds
    nothing. A name that holds a null byte never reaches the system:
    [Path.exists] answers [False] to it, as it does where nothing is
    found. *)

Class Platform := {
  os_refuses : string -> option string
}.

(** [f] ends in [/] or in [/.]: to the operating system such a name is
    the name of a directory. [Path] drops the ending. *)
Definition names_directory (f : string) : bool :=
  match rev (split_sep f) with
  | last :: _ :: _ => String.eqb last "" || String.eqb last "."
  | _ => false
  end.

Section system_calls.
Context {O : Platform}.

(** The [OSError] of a lookup of the name [f] that finds nothing. *)
Definition lookup_failure (f : string) : exn :=
  match os_refuses f with
  | Some msg => OSError EOther msg
  | None => OSError EFileNotFound ("No such file or directory: " +:+ f)
  end.

(** [os.stat(p)]. *)
Definition os_stat (p : path) : M node := fun s =>
  match stat s p with
  | Some n => (s, Return n)
  | None => (s, Raise (lookup_failure (str p)))
  end.

(** [except OSError as e: if not _ignore_error(e): raise] followed by
    [return False], the handler of [Path.exists], [Path.is_file] and
    [Path.is_dir]: [_ignore_error] holds of ENOENT, ENOTDIR, EBADF and
    ELOOP, every other [OSError] is raised again. *)
Definition False_if_ignored (e : exn) : option (M bool) :=
  match e with
  | OSError EFileNotFound _ | OSError ENotADirectory _ => Some (ret false)
  | _ => None
  end.

(** [p.exists()], [p.is_file()], [p.is_dir()]. *)
Definition path_exists (p : path) : M bool :=
  try_except (os_stat p ;; ret true) False_if_ignored.

Definition is_file (p : path) : M bool :=
  try_except
    (n <- os_stat p ;; ret (match n with File _ _ => true | Dir => false end))
    False_if_ignored.

Definition is_dir (p : path) : M bool :=
  try_except
    (n <- os_stat p ;; ret (match n with Dir => true | File _ _ => false end))
    False_if_ignored.

(** [open(p, 'rb')] followed by reading the whole file, for a [Path]. *)
Definition read_bytes (p : path) : M (list byte) := fun s =>
  match stat s p with
  | Some (File c None) => (s, Return c)
  | Some (File _ (Some msg)) => (s, Raise (OSError EOther msg))
  | Some Dir => (s, Raise (OSError EIsADirectory ("Is a directory: " +:+ str p)))
  | None => (s, Raise (lookup_failure (str p)))
  end.

(** [open(x, 'rb')] followed by reading the whole file, for an argument
    [x] as the caller passed it. A [Path] is opened at the path it is. A
    [str] goes to the system as it is written: the system may refuse it,
    and where [Path] finds a regular file the system does not open it
    under a name that ends in [/] or [/.]. *)
Definition read_named (x : pathlike) : M (list byte) :=
  match x with
  | PPath p => read_bytes p
  | PStr f =>
      match os_refuses f with
      | Some msg => raise (OSError EOther msg)
      | None =>
          if String.eqb f "" then
            raise (OSError EFileNotFound "No such file or directory: ")
          else fun s =>
            match stat s (parse_path f) with
            | Some (File _ _) =>
                if names_directory f
                then (s, Raise (OSError ENotADirectory ("Not a directory: " +:+ f)))
                else read_bytes (parse_path f) s
            | _ => read_bytes (parse_path f) s
            end
      end
  end.

(** [with open(x, 'rb') as f: f.read(n)]. *)
Definition open_rb_read_named (x : pathlike) (n : nat) : M (list byte) :=
  c <- read_named x ;; ret (take n c).

End system_calls.

(** [open(p, 'wb')]: creates or truncates the file; the directory that
    holds it must exist. *)
Definition open_wb (p : path) : M unit := fun s =>
  match stat s p with
  | Some Dir => (s, Raise (OSError EIsADirectory ("Is a directory: " +:+ str p)))
  | Some (File _ re) => (<[p := File [] re]> s, Return tt)
  | None =>
      match stat s (parent p) with
      | Some Dir => (<[p := File [] None]> s, Return tt)
      | Some (File _ _) => (s, Raise (OSError ENotADirectory ("Not a directory: " +:+ str p)))
      | None => (s, Raise (OSError EFileNotFound ("No such file or directory: " +:+ str p)))
      end
  end.

(** [f.write(data)] on the file opened at [p]. *)
Definition write_bytes (p : path) (data : list byte) : M unit := fun s =>
  match s !! p with
  | Some (File _ re) => (<[p := File data re]> s, Return tt)
  | _ => (s, Raise (OSError EOther ("Bad file descriptor: " +:+ str p)))
  end.

(** [os.mkdir(p)]. *)
Definition os_mkdir (p : path) : M unit := fun s =>
  match stat s p with
  | Some _ => (s, Raise (OSError EFileExists ("File exists: " +:+ str p)))
  | None =>
      match stat s (parent p) with
      | Some Dir => (<[p := Dir]> s, Return tt)
      | Some (File _ _) => (s, Raise (OSError ENotADirectory ("Not a directory: " +:+ str p)))
      | None => (s, Raise (OSError EFileNotFound ("No such file or directory: " +:+ str p)))
      end
  end.

Section mkdir.
Context {O : Platform}.

(** The handler [except OSError: if not exist_ok or not self.is_dir():
    raise] of [Path.mkdir], with [exist_ok=True]. *)
Definition retry_is_dir (p : path) (e : exn) : M unit :=
  d <- is_dir p ;; if d then ret tt else raise e.

(** [p.mkdir(parents=False, exist_ok=True)]. *)
Definition mkdir_exist_ok (p : path) : M unit :=
  try_except (os_mkdir p)
    (fun e =>
       match e with
       | OSError EFileNotFound _ => Some (raise e)
       | OSError _ _ => Some (retry_is_dir p e)
       | _ => None
       end).

(** [p.mkdir(parents=True, exist_ok=True)], by recursion on the components
    of [p] from the last one: [rparts] is [parts p] reversed, so that its
    tail is the parent. *)
Fixpoint mkdir_from (r : string) (rparts : list string) : M unit :=
  let p := mkPath r (rev rparts) in
  try_except (os_mkdir p)
    (fun e =>
       match e with
       | OSError EFileNotFound _ =>
           Some (match rparts with
                 | [] => raise e
                 | _ :: up => mkdir_from r up ;; mkdir_exist_ok p
                 end)
       | OSError _ _ => Some (retry_is_dir p e)
       | _ => None
       end).

Definition mkdir_parents (p : path) : M unit :=
  mkdir_from (root p) (rev (parts p)).

End mkdir.

(** ** validators.py *)

Module Validator.

(** Magic numbers for file type verification. *)
Definition MAGIC_NUMBERS : gmap string (list byte) :=
  list_to_map
    [ ("pdf",  [x25; x50; x44; x46]);
      ("png",  [x89; x50; x4e; x47; x0d; x0a; x1a; x0a]);
      ("jpg",  [xff; xd8; xff]);
      ("jpeg", [xff; xd8; xff]) ].

(** [d[k]]. *)
Definition getitem (d : gmap string (list byte)) (k : string) : M (list byte) :=
  match d !! k with
  | Some v => ret v
  | None => raise (KeyError k)
  end.

Section with_platform.
Context {O : Platform}.

Definition validate_file (file_path : pathlike) : M bool :=
  let path := Path file_path in
  ex <- path_exists path ;;
  if negb ex then
    raise (FileValidationError ("File not found: " +:+ fmt file_path))
  else
    isf <- is_file path ;;
    if negb isf then
      raise (FileValidationError ("Path is not a file: " +:+ fmt file_path))
    else ret true.

Definition validate_pdf (file_path : pathlike) : M bool :=
  validate_file file_path ;;
  try_except
    (header <- open_rb_read_named file_path 4 ;;
     magic <- getitem MAGIC_NUMBERS "pdf" ;;
     if negb (startswith header magic) then
       raise (FileValidationError ("Invalid PDF file header: " +:+ fmt file_path))
     else ret tt)
    (except_OSError (fun e =>
       raise (FileValidationError
                ("Error reading file " +:+ fmt file_path +:+ ": " +:+ str_exn e)))) ;;
  ret true.

Definition validate_image (file_path : pathlike) : M bool :=
  validate_file file_path ;;
  let path := Path file_path in
  let ext := lstrip "." (lower (suffix path)) in
  if negb (bool_decide (ext ∈ ["png"; "jpg"; "jpeg"])) then
    raise (FileValidationError ("Unsupported image extension: " +:+ ext))
  else
    match MAGIC_NUMBERS !! ext with
    | None | Some [] =>
        raise (FileValidationError ("Unsupported image type: " +:+ ext))
    | Some magic =>
        let read_len := length magic in
        try_except
          (header <- open_rb_read_named file_path read_len ;;
           if negb (startswith header magic) then
             raise (FileValidationError
                      ("Invalid " +:+ upper ext +:+ " file header: " +:+ fmt file_path))
           else ret tt)
          (except_OSError (fun e =>
             raise (FileValidationError
                      ("Error reading file " +:+ fmt file_path +:+ ": " +:+ str_exn e)))) ;;
        ret true
    end.

(** The [for] loop of [validate_paths], with [validated_paths] as the
    accumulator. *)
Fixpoint validate_paths_loop (paths : list pathlike) (file_type : string)
    (validated_paths : list path) : M (list path) :=
  match paths with
  | [] => ret validated_paths
  | p :: rest =>
      let path_obj := Path p in
      (if String.eqb file_type "pdf" then
         validate_pdf (PPath path_obj) ;; ret tt
       else if String.eqb file_type "image" then
         validate_image (PPath path_obj) ;; ret tt
       else ret tt) ;;
      validate_paths_loop rest file_type (validated_paths ++ [path_obj])
  end.

Definition validate_paths (paths : list pathlike) (file_type : string) : M (list path) :=
  validate_paths_loop paths file_type [].

End with_platform.
End Validator.

(** ** PyPDF2 and Pillow

    The two libraries are used through a handful of calls. Each call is a
    function on values that may raise; a call that takes a file name reads
    or writes that file through the file system above. *)

Class Backend := {
  page : Type;
  image : Type;
  (** the pages of a document, as [PdfReader(f).pages] and
      [PdfMerger.append(f)] find them in the bytes of [f] *)
  pdf_read : list byte -> outcome (list page);
  (** the bytes [PdfWriter.write] and [PdfMerger.write] produce for the
      pages added so far *)
  pdf_write : list page -> outcome (list byte);
  (** [page.rotate(angle)]: the page after the call *)
  page_rotate : page -> Z -> outcome page;
  (** [Image.open(f)] *)
  image_open : list byte -> outcome image;
  (** [img.mode] *)
  image_mode : image -> string;
  (** [img.convert(mode)] *)
  image_convert : image -> string -> outcome image;
  (** the bytes of [first.save(f, "PDF", resolution=100.0, save_all=True,
      append_images=rest)] *)
  image_save_pdf : image -> list image -> outcome (list byte)
}.

Section library_calls.
Context {O : Platform} {B : Backend}.

(** [PdfReader(p).pages] for a [Path]: the file is read whole, then
    parsed. *)
Definition PdfReader_pages (p : path) : M (list page) :=
  c <- read_bytes p ;; lift (pdf_read c).

(** [PdfReader(x).pages] for an argument as the caller passed it. *)
Definition PdfReader_pages_named (x : pathlike) : M (list page) :=
  c <- read_named x ;; lift (pdf_read c).

(** Writing a document of [pages] to the file [p]: the file is opened
    for writing first, then the document is serialised into it. *)
Definition write_pdf (p : path) (pages : list page) : M unit :=
  open_wb p ;;
  data <- lift (pdf_write pages) ;;
  write_bytes p data.

(** [Image.open(p)]. *)
Definition Image_open (p : path) : M image :=
  c <- read_bytes p ;; lift (image_open c).

(** [first.save(p, "PDF", ..., append_images=rest)]. *)
Definition Image_save (first : image) (p : path) (rest : list image) : M unit :=
  open_wb p ;;
  data <- lift (image_save_pdf first rest) ;;
  write_bytes p data.

End library_calls.

(** ** actions.py *)

Module PDFManager.
Section with_backend.
Context {O : Platform} {B : Backend}.

(** [except FileValidationError as e: raise PDFActionError(f"Validation
    failed: {e}")]. *)
Definition validation_failed {A} : exn -> option (M A) :=
  except_FileValidationError (fun e =>
    raise (PDFActionError ("Validation failed: " +:+ str_exn e))).

(** [except Exception as e: raise PDFActionError(f"{what}: {e}")]. *)
Definition failed_to {A} (what : string) : exn -> option (M A) :=
  except_Exception (fun e =>
    raise (PDFActionError (what +:+ ": " +:+ str_exn e))).

(** [for path in validated_paths: merger.append(str(path))]; the merger
    is the list of the pages appended so far. *)
Fixpoint append_all (validated_paths : list path) (merger : list page)
    : M (list page) :=
  match validated_paths with
  | [] => ret merger
  | path :: rest =>
      pages <- PdfReader_pages (Path (PStr (str path))) ;;
      append_all rest (merger ++ pages)
  end.

(** [merger.close()] releases the merger and touches no file. *)
Definition merger_close : M unit := ret tt.

Definition merge_pdfs (file_paths : list pathlike) (output_path : pathlike)
    : M path :=
  validated_paths <-
    try_except (Validator.validate_paths file_paths "pdf") validation_failed ;;
  try_except
    (merger <- append_all validated_paths [] ;;
     let output_path := Path output_path in
     mkdir_parents (parent output_path) ;;
     write_pdf (Path (PStr (str output_path))) merger ;;
     merger_close ;;
     ret output_path)
    (except_Exception (fun e =>
       try_except merger_close (except_Exception (fun _ => ret tt)) ;;
       raise (PDFActionError ("Failed to merge PDFs: " +:+ str_exn e)))).

(** The loop that opens the images and converts them to RGB. *)
Fixpoint open_images (validated_paths : list path) (images : list image)
    : M (list image) :=
  match validated_paths with
  | [] => ret images
  | path :: rest =>
      img <- Image_open path ;;
      img <- (if negb (String.eqb (image_mode img) "RGB")
              then lift (image_convert img "RGB") else ret img) ;;
      open_images rest (images ++ [img])
  end.

Definition convert_images_to_pdf (image_paths : list pathlike)
    (output_path : pathlike) : M path :=
  validated_paths <-
    try_except (Validator.validate_paths image_paths "image") validation_failed ;;
  match validated_paths with
  | [] => raise (PDFActionError "No valid images provided.")
  | _ :: _ =>
      try_except
        (images <- open_images validated_paths [] ;;
         match images with
         | [] => raise (IndexError "list index out of range")
         | first_image :: rest_images =>
             let output_path := Path output_path in
             mkdir_parents (parent output_path) ;;
             Image_save first_image (Path (PStr (str output_path))) rest_images ;;
             (* [img.close()] for every image: no file is touched *)
             ret output_path
         end)
        (failed_to "Failed to convert images to PDF")
  end.

(** The body of [for i, page in enumerate(reader.pages)]. *)
Fixpoint split_loop (out_dir : path) (base_name : string) (i : nat)
    (pages : list page) (generated_files : list path) : M (list path) :=
  match pages with
  | [] => ret generated_files
  | page :: rest =>
      let out_filename :=
        joinpath out_dir
          (base_name +:+ "_page_" +:+ str_of_nat (i + 1) +:+ ".pdf") in
      write_pdf out_filename [page] ;;
      split_loop out_dir base_name (S i) rest (generated_files ++ [out_filename])
  end.

Definition split_pdf (file_path : pathlike) (output_dir : pathlike)
    : M (list path) :=
  try_except (Validator.validate_pdf file_path ;; ret tt) validation_failed ;;
  let src_path := Path file_path in
  let out_dir := Path output_dir in
  mkdir_parents out_dir ;;
  try_except
    (pages <- PdfReader_pages src_path ;;
     let base_name := stem src_path in
     split_loop out_dir base_name 0 pages [])
    (failed_to "Failed to split PDF").

(** [for page in reader.pages: page.rotate(rotation);
    writer.add_page(page)]; the writer is the list of the pages added. *)
Fixpoint rotate_loop (rotation : Z) (pages : list page) (writer : list page)
    : M (list page) :=
  match pages with
  | [] => ret writer
  | page :: rest =>
      page <- lift (page_rotate page rotation) ;;
      rotate_loop rotation rest (writer ++ [page])
  end.

Definition rotate_pdf (file_path : pathlike) (output_path : pathlike)
    (rotation : Z) : M path :=
  try_except (Validator.validate_pdf file_path ;; ret tt) validation_failed ;;
  try_except
    (pages <- PdfReader_pages_named file_path ;;
     writer <- rotate_loop rotation pages [] ;;
     let output_path := Path output_path in
     write_pdf output_path writer ;;
     ret output_path)
    (failed_to "Failed to rotate PDF").

End with_backend.
End PDFManager.

(** ** Well-formed paths and what the file system allows

    The invariants of values the code receives and the conditions the
    environment must meet for a write to go through. *)

Fixpoint no_slash (s : string) : bool :=
  match s with
  | EmptyString => true
  | String c s' => negb (Ascii.eqb c "/") && no_slash s'
  end.

(** Every [Path] object satisfies [wf_path]: its root is one of the three
    POSIX roots and no component is empty, [.] or contains a slash. *)
Definition wf_part (x : string) : bool := keeps x && no_slash x.

Definition wf_root (r : string) : bool :=
  String.eqb r "" || String.eqb r "/" || String.eqb r "//".

Definition wf_path (p : path) : bool :=
  wf_root (root p) && forallb wf_part (parts p).

Definition wf_pathlike (x : pathlike) : bool :=
  match x with
  | PStr _ => true
  | PPath p => wf_path p
  end.

Definition not_a_file (s : fs) (p : path) : bool :=
  match stat s p with
  | Some (File _ _) => false
  | _ => true
  end.

(** No regular file sits at [p] or at a directory above it, so that
    [p.mkdir(parents=True, exist_ok=True)] has nothing in its way; [rparts]
    is reversed as in [mkdir_from]. *)
Fixpoint clear_from (s : fs) (r : string) (rparts : list string) : bool :=
  not_a_file s (mkPath r (rev rparts))
  && match rparts with
     | [] => true
     | _ :: up => clear_from s r up
     end.

Definition creatable (s : fs) (p : path) : bool :=
  clear_from s (root p) (rev (parts p)).

(** [open(p, 'wb')] goes through: [p] is a regular file, or is absent from
    a directory that exists. *)
Definition can_write (s : fs) (p : path) : bool :=
  match stat s p with
  | Some Dir => false
  | Some (File _ _) => true
  | None => match stat s (parent p) with Some Dir => true | _ => false end
  end.

(** The file system after [data] has been written to [p]. *)
Definition written (s : fs) (p : path) (data : list byte) : fs :=
  <[p := File data match s !! p with Some (File _ re) => re | _ => None end]> s.

(** [s'] has a directory exactly where [s] has one. *)
Definition same_dirs (s s' : fs) : Prop :=
  forall q, stat s' q = Some Dir <-> stat s q = Some Dir.

(** The name of the file for page [n], as the specification writes it:
    [{stem}_page_{n}.pdf]. *)
Definition page_file_name (stem : string) (n : nat) : string :=
  stem +:+ "_page_" +:+ str_of_nat n +:+ ".pdf".

(** The first [n] bytes of a regular file, as a reader gets them: there are
    none to compare when the file cannot be read. *)
Definition leading_bytes (content : list byte) (read_error : option string)
    (n : nat) : option (list byte) :=
  match read_error with
  | None => Some (take n content)
  | Some _ => None
  end.

(** [open(x, 'rb')] opens the regular file that [Path(x)] is: always
    when [x] is a [Path]; when [x] is a [str], if the system takes the
    name and the name does not end in [/] or [/.]. *)
Definition opens_the_file {O : Platform} (x : pathlike) : bool :=
  match x with
  | PPath _ => true
  | PStr f =>
      negb (names_directory f)
      && match os_refuses f with None => true | Some _ => false end
  end.

(** ** The signature table of the specification

    The table of recognised image signatures as the specification words
    it, extension by extension; [validate_image] is compared with it. *)

Definition PDF_SIGNATURE : list byte := [x25; x50; x44; x46].
Definition PNG_SIGNATURE : list byte := [x89; x50; x4e; x47; x0d; x0a; x1a; x0a].
Definition JPEG_SIGNATURE : list byte := [xff; xd8; xff].

Definition image_signature (ext : string) : option (list byte) :=
  if String.eqb ext "png" then Some PNG_SIGNATURE
  else if String.eqb ext "jpg" then Some JPEG_SIGNATURE
  else if String.eqb ext "jpeg" then Some JPEG_SIGNATURE
  else None.

(** The extension [validate_image] looks at. *)
Definition image_ext (p : path) : string := lstrip "." (lower (suffix p)).

(** ** ui/components/file_list.py

    The list of files of the merge and image pages. A [FileItem] is a
    widget: two items are the same item when they are the same object, so
    each carries the identity [oid] it was created with. Of the frame that
    holds the items two things are kept: the list [file_items] of the
    code, and [packed], the order in which the packer shows the items
    (packing an item that is not shown puts it last, forgetting or
    destroying an item takes it out). *)

Module FileList.

Record FileItem := mkFileItem { oid : nat; item_path : string }.

#[global] Instance FileItem_eq_dec : EqDecision FileItem.
Proof. solve_decision. Defined.

Inductive error :=
| ValueError (msg : string)
| IndexError (msg : string).

Record state := mkState {
  file_items : list FileItem;
  packed : list FileItem;
  next_oid : nat
}.

(** [l.index(x)]: the position of the first occurrence, [None] when
    Python raises [ValueError]. *)
Fixpoint index (x : FileItem) (l : list FileItem) : option nat :=
  match l with
  | [] => None
  | y :: rest => if decide (y = x) then Some 0 else S <$> index x rest
  end.

(** [l.remove(x)]: the list without the first occurrence of [x]. *)
Fixpoint remove (x : FileItem) (l : list FileItem) : list FileItem :=
  match l with
  | [] => []
  | y :: rest => if decide (y = x) then rest else y :: remove x rest
  end.

(** [item.pack(...)], [item.pack_forget()] and [item.destroy()], as far as
    the order of the items on screen goes. *)
Definition pack (item : FileItem) (shown : list FileItem) : list FileItem :=
  if decide (item ∈ shown) then shown else shown ++ [item].

Definition pack_forget (item : FileItem) (shown : list FileItem) : list FileItem :=
  List.filter (fun y => negb (bool_decide (y = item))) shown.

Definition destroy (item : FileItem) (shown : list FileItem) : list FileItem :=
  pack_forget item shown.

(** [FileList(master)]. *)
Definition init : state := mkState [] [] 0.

Definition add_file (self : state) (path : string) : state :=
  let item := mkFileItem (next_oid self) path in
  mkState (file_items self ++ [item])
          (pack item (packed self))
          (S (next_oid self)).

Definition remove_item (self : state) (item : FileItem) : state :=
  if decide (item ∈ file_items self) then
    mkState (remove item (file_items self))
            (destroy item (packed self))
            (next_oid self)
  else self.

Definition _repack_all (self : state) : state :=
  let forgotten :=
    fold_left (fun shown item => pack_forget item shown)
              (file_items self) (packed self) in
  mkState (file_items self)
          (fold_left (fun shown item => pack item shown)
                     (file_items self) forgotten)
          (next_oid self).

(** [l[i], l[j] = l[j], l[i]]. *)
Definition swap (i j : nat) (l : list FileItem) : error + list FileItem :=
  match l !! j, l !! i with
  | Some at_j, Some at_i => inr (<[j := at_i]> (<[i := at_j]> l))
  | _, _ => inl (IndexError "list index out of range")
  end.

Definition move_up (self : state) (item : FileItem) : error + state :=
  match index item (file_items self) with
  | None => inl (ValueError "list.index(x): x not in list")
  | Some idx =>
      if Nat.ltb 0 idx then
        match swap idx (idx - 1) (file_items self) with
        | inr items =>
            inr (_repack_all (mkState items (packed self) (next_oid self)))
        | inl e => inl e
        end
      else inr self
  end.

Definition move_down (self : state) (item : FileItem) : error + state :=
  match index item (file_items self) with
  | None => inl (ValueError "list.index(x): x not in list")
  | Some idx =>
      if Nat.ltb idx (length (file_items self) - 1) then
        match swap idx (idx + 1) (file_items self) with
        | inr items =>
            inr (_repack_all (mkState items (packed self) (next_oid self)))
        | inl e => inl e
        end
      else inr self
  end.

Definition get_paths (self : state) : list string :=
  map item_path (file_items self).

Definition clear (self : state) : state :=
  mkState []
          (fold_left (fun shown item => destroy item shown)
                     (file_items self) (packed self))
          (next_oid self).

(** What the methods keep: the screen shows the items of the list in the
    order of the list, no item twice, and every item was created before
    the next one will be. *)
Definition consistent (self : state) : Prop :=
  packed self = file_items self
  /\ NoDup (file_items self)
  /\ Forall (fun item => oid item < next_oid self) (file_items self).

End FileList.

(** ** ui/pages/tools_page.py

    The two handlers of the tools page. What the file dialogs return is an
    argument (the empty string when the user cancels), the message box the
    handler opens is the result. *)

Module ToolsPage.

Inductive messagebox :=
| showinfo (title message : string)
| showerror (title message : string).

(** The values of the three radio buttons bound to [rotation_var]. *)
Definition radio_values : list Z := [90%Z; 180%Z; 270%Z].

Section with_backend.
Context {O : Platform} {B : Backend}.

Definition run_split (file output_dir : string) : M (option messagebox) :=
  if String.eqb file "" then ret None
  else if String.eqb output_dir "" then ret None
  else
    try_except
      (files <- PDFManager.split_pdf (PStr file) (PStr output_dir) ;;
       ret (Some (showinfo "Success"
                    ("Split into " +:+ str_of_nat (length files)
                     +:+ " pages successfully!"))))
      (except_Exception (fun e => ret (Some (showerror "Error" (str_exn e))))).

Definition run_rotate (file output_file : string) (rotation_var : Z)
    : M (option messagebox) :=
  if String.eqb file "" then ret None
  else if String.eqb output_file "" then ret None
  else
    try_except
      (PDFManager.rotate_pdf (PStr file) (PStr output_file) rotation_var ;;
       ret (Some (showinfo "Success" "PDF Rotated successfully!")))
      (except_Exception (fun e => ret (Some (showerror "Error" (str_exn e))))).

End with_backend.
End ToolsPage.

(** ** Several writes *)

(** The file system after each file of the list has been written, first
    to last. *)
Fixpoint written_all (s : fs) (files : list (path * list byte)) : fs :=
  match files with
  | [] => s
  | (p, data) :: rest => written_all (written s p data) rest
  end.

(** [img.mode != 'RGB'] decides whether the image is converted. *)
Definition as_rgb {B : Backend} (raw img : image) : Prop :=
  (image_mode raw = "RGB" /\ img = raw)
  \/ (image_mode raw <> "RGB" /\ image_convert raw "RGB" = Return img).

(** ** The limits of Linux

    The platform the definitions are run on: a lookup fails with
    ENAMETOOLONG when the name has [PATH_MAX] bytes or more, or a
    component of more than [NAME_MAX] bytes. *)

Module Linux.

Definition NAME_MAX : nat := 255.
Definition PATH_MAX : nat := 4096.

Definition refuses (f : string) : option string :=
  if Nat.leb PATH_MAX (String.length f)
     || existsb (fun part => Nat.ltb NAME_MAX (String.length part)) (split_sep f)
  then Some ("File name too long: " +:+ f)
  else None.

#[global] Instance platform : Platform := {| os_refuses := refuses |}.

End Linux.

(** ** Small backends to run the definitions on

    A page is the number of degrees it has been rotated by; a document is
    the signature [%PDF] followed by one byte per page. An image is its
    mode and its bytes. [backend] takes every call, as the mocks of the
    test suite do; [checked_backend] differs in [page.rotate], which it
    checks as PyPDF2 does. *)

Module Toy.

Definition byte_of_Z (z : Z) : byte :=
  match Byte.of_N (Z.to_N (z mod 256)) with
  | Some b => b
  | None => x00
  end.

Definition Z_of_byte (b : byte) : Z := Z.of_N (Byte.to_N b).

Definition toy_pdf_read (c : list byte) : outcome (list Z) :=
  if startswith c [x25; x50; x44; x46]
  then Return (map Z_of_byte (drop 4 c))
  else Raise (LibraryError "EOF marker not found").

Definition toy_pdf_write (pages : list Z) : outcome (list byte) :=
  Return ([x25; x50; x44; x46] ++ map byte_of_Z pages).

Definition toy_image_open (c : list byte) : outcome (string * list byte) :=
  match c with
  | x89 :: _ => Return ("RGBA", c)
  | _ => Return ("RGB", c)
  end.

#[local] Instance backend : Backend := {|
  page := Z;
  image := string * list byte;
  pdf_read := toy_pdf_read;
  pdf_write := toy_pdf_write;
  page_rotate := fun p angle => Return (p + angle)%Z;
  image_open := toy_image_open;
  image_mode := fst;
  image_convert := fun img mode => Return (mode, snd img);
  image_save_pdf := fun first rest =>
    Return ([x25; x50; x44; x46] ++ map (fun _ => x00) (first :: rest))
|}.

(** [page.rotate(angle)] of PyPDF2, which "rotates a page clockwise by
    increments of 90 degrees": it raises [ValueError("Rotation angle must
    be a multiple of 90")] when [angle % 90 != 0] and adds the angle to
    the rotation of the page otherwise. *)
Definition pypdf2_rotate (p : Z) (angle : Z) : outcome Z :=
  if (angle mod 90 =? 0)%Z then Return (p + angle)%Z
  else Raise (LibraryError "Rotation angle must be a multiple of 90").

#[local] Instance checked_backend : Backend := {|
  page := Z;
  image := string * list byte;
  pdf_read := toy_pdf_read;
  pdf_write := toy_pdf_write;
  page_rotate := pypdf2_rotate;
  image_open := toy_image_open;
  image_mode := fst;
  image_convert := fun img mode => Return (mode, snd img);
  image_save_pdf := fun first rest =>
    Return ([x25; x50; x44; x46] ++ map (fun _ => x00) (first :: rest))
|}.

(** [%PDF] followed by two page bytes. *)
Definition two_pages : list byte := [x25; x50; x44; x46; x00; x00].

(** A directory [docs] holding a two-page [a.pdf], a text file
    [fake.pdf], a PNG and a JPEG image, and a PDF that cannot be read. *)
Definition disk : fs :=
  list_to_map
    [ (parse_path "docs", Dir);
      (parse_path "docs/a.pdf", File two_pages None);
      (parse_path "docs/fake.pdf", File [x4e; x4f; x54; x5f; x41] None);
      (parse_path "docs/pic.PNG",
         File [x89; x50; x4e; x47; x0d; x0a; x1a; x0a; x01] None);
      (parse_path "docs/photo.jpeg", File [xff; xd8; xff; xe0] None);
      (parse_path "docs/locked.pdf", File two_pages (Some "Permission denied")) ].

End Toy.

(** ** A backend that can fail

    As [Toy.backend], but the reader does not find a document in a file
    that holds the signature and nothing else, the image library does not
    identify an image in a file that holds a signature and nothing else,
    and the writer cannot serialise a page whose rotation is negative or
    above 254. *)

Module Fragile.

Definition pdf_read_or_fail (c : list byte) : outcome (list Z) :=
  match drop 4 c with
  | [] => Raise (LibraryError "EOF marker not found")
  | _ => Toy.toy_pdf_read c
  end.

Definition pdf_write_or_fail (pages : list Z) : outcome (list byte) :=
  if forallb (fun p => (0 <=? p)%Z && (p <? 255)%Z) pages
  then Toy.toy_pdf_write pages
  else Raise (LibraryError "cannot serialise the page").

Definition image_open_or_fail (c : list byte) : outcome (string * list byte) :=
  match c with
  | [xff; xd8; xff] | [x89; x50; x4e; x47; x0d; x0a; x1a; x0a] =>
      Raise (LibraryError "cannot identify image file")
  | _ => Toy.toy_image_open c
  end.

#[local] Instance backend : Backend := {|
  page := Z;
  image := string * list byte;
  pdf_read := pdf_read_or_fail;
  pdf_write := pdf_write_or_fail;
  page_rotate := fun p angle => Return (p + angle)%Z;
  image_open := image_open_or_fail;
  image_mode := fst;
  image_convert := fun img mode => Return (mode, snd img);
  image_save_pdf := fun first rest =>
    Return ([x25; x50; x44; x46] ++ map (fun _ => x00) (first :: rest))
|}.

(** [Toy.disk] with a PDF and a JPEG that are cut after the signature. *)
Definition disk : fs :=
  <[parse_path "docs/cut.pdf" := File [x25; x50; x44; x46] None]>
    (<[parse_path "docs/cut.jpg" := File [xff; xd8; xff] None]> Toy.disk).

End Fragile.

(** * Properties *)

(** ** Concrete runs *)

Example parse_path_normalises :
  parse_path "/usr//lib/./x/" = mkPath "/" ["usr"; "lib"; "x"]
  /\ parse_path "//host/x" = mkPath "//" ["host"; "x"]
  /\ parse_path "///x" = mkPath "/" ["x"]
  /\ parse_path "" = mkPath "" []
  /\ str (parse_path "a/./b//c") = "a/b/c"
  /\ str (parse_path "") = ".".
Proof. repeat split; reflexivity. Qed.

Example suffix_and_stem :
  suffix (parse_path "docs/pic.PNG") = ".PNG"
  /\ image_ext (parse_path "docs/pic.PNG") = "png"
  /\ suffix (parse_path "a/archive.tar.gz") = ".gz"
  /\ stem (parse_path "a/archive.tar.gz") = "archive.tar"
  /\ suffix (parse_path ".png") = ""
  /\ suffix (parse_path "name.") = ""
  /\ stem (parse_path "docs/a.pdf") = "a"
  /\ name (joinpath (parse_path "out") "a_page_1.pdf") = "a_page_1.pdf"
  /\ page_file_name "a" 12 = "a_page_12.pdf".
Proof. repeat split; reflexivity. Qed.

Example validators_on_disk :
  Validator.validate_file (PStr "docs/nothing") Toy.disk
  = (Toy.disk, Raise (FileValidationError "File not found: docs/nothing"))
  /\ Validator.validate_file (PStr "docs") Toy.disk
    = (Toy.disk, Raise (FileValidationError "Path is not a file: docs"))
  /\ Validator.validate_pdf (PStr "docs/fake.pdf") Toy.disk
    = (Toy.disk, Raise (FileValidationError "Invalid PDF file header: docs/fake.pdf"))
  /\ Validator.validate_pdf (PStr "docs/locked.pdf") Toy.disk
    = (Toy.disk,
       Raise (FileValidationError
                "Error reading file docs/locked.pdf: Permission denied"))
  /\ Validator.validate_image (PStr "docs/photo.jpeg") Toy.disk
    = (Toy.disk, Return true)
  /\ Validator.validate_image (PStr "docs/a.pdf") Toy.disk
    = (Toy.disk, Raise (FileValidationError "Unsupported image extension: pdf")).
Proof. repeat split; reflexivity. Qed.

(** A [str] that names a regular file with a slash at its end passes
    [validate_file], which looks at [Path(x)], and fails where the file is
    opened under the name as it is written: in [validate_pdf],
    [validate_image], [split_pdf] and [rotate_pdf]. [validate_paths], and
    with it [merge_pdfs], validates the [Path] and accepts it. *)
Example name_with_a_slash_at_its_end :
  Validator.validate_file (PStr "docs/a.pdf/") Toy.disk = (Toy.disk, Return true)
  /\ Validator.validate_pdf (PStr "docs/a.pdf/") Toy.disk
     = (Toy.disk,
        Raise (FileValidationError
                 "Error reading file docs/a.pdf/: Not a directory: docs/a.pdf/"))
  /\ Validator.validate_pdf (PStr "docs/a.pdf/.") Toy.disk
     = (Toy.disk,
        Raise (FileValidationError
                 "Error reading file docs/a.pdf/.: Not a directory: docs/a.pdf/."))
  /\ Validator.validate_image (PStr "docs/pic.PNG/") Toy.disk
     = (Toy.disk,
        Raise (FileValidationError
                 "Error reading file docs/pic.PNG/: Not a directory: docs/pic.PNG/"))
  /\ Validator.validate_pdf (PStr "docs//a.pdf") Toy.disk = (Toy.disk, Return true)
  /\ Validator.validate_paths [PStr "docs/a.pdf/"] "pdf" Toy.disk
     = (Toy.disk, Return [parse_path "docs/a.pdf"])
  /\ PDFManager.split_pdf (B := Toy.backend) (PStr "docs/a.pdf/") (PStr "out") Toy.disk
     = (Toy.disk,
        Raise (PDFActionError
                 ("Validation failed: "
                  +:+ "Error reading file docs/a.pdf/: Not a directory: docs/a.pdf/")))
  /\ PDFManager.rotate_pdf (B := Toy.backend)
       (PStr "docs/a.pdf/") (PStr "docs/r.pdf") 90 Toy.disk
     = (Toy.disk,
        Raise (PDFActionError
                 ("Validation failed: "
                  +:+ "Error reading file docs/a.pdf/: Not a directory: docs/a.pdf/"))).
Proof. repeat split; reflexivity. Qed.

(** A name that the system refuses to look up: [Path.exists] raises the
    [OSError] again, and no operation catches it. *)
Example name_too_long :
  Validator.validate_file (PStr (str_mul "a" 255)) Toy.disk
  = (Toy.disk,
     Raise (FileValidationError ("File not found: " +:+ str_mul "a" 255)))
  /\ Validator.validate_pdf (PStr (str_mul "a" 256)) Toy.disk
     = (Toy.disk, Raise (OSError EOther ("File name too long: " +:+ str_mul "a" 256)))
  /\ PDFManager.merge_pdfs (B := Toy.backend)
       [PStr (str_mul "a" 256)] (PStr "o.pdf") Toy.disk
     = (Toy.disk, Raise (OSError EOther ("File name too long: " +:+ str_mul "a" 256))).
Proof. repeat split; vm_compute; reflexivity. Qed.

Example mkdir_parents_on_disk :
  stat (mkdir_parents (parse_path "new/dir") Toy.disk).1 (parse_path "new") = Some Dir
  /\ stat (mkdir_parents (parse_path "new/dir") Toy.disk).1 (parse_path "new/dir")
     = Some Dir
  /\ (mkdir_parents (parse_path "docs/a.pdf/x") Toy.disk).2
     = Raise (OSError ENotADirectory "Not a directory: docs/a.pdf/x")
  /\ (mkdir_parents (parse_path "docs/a.pdf") Toy.disk).2
     = Raise (OSError EFileExists "File exists: docs/a.pdf")
  /\ mkdir_parents (parse_path "docs") Toy.disk = (Toy.disk, Return tt).
Proof. repeat split; reflexivity. Qed.

(** ** Running the monad *)

Lemma bind_Return {A B} (m : M A) (f : A -> M B) s s' a :
  m s = (s', Return a) -> bind m f s = f a s'.
Proof. intros H. unfold bind. rewrite H. reflexivity. Qed.

Lemma bind_Raise {A B} (m : M A) (f : A -> M B) s s' e :
  m s = (s', Raise e) -> bind m f s = (s', Raise e).
Proof. intros H. unfold bind. rewrite H. reflexivity. Qed.

Lemma try_Return {A} (m : M A) h s s' a :
  m s = (s', Return a) -> try_except m h s = (s', Return a).
Proof. intros H. unfold try_except. rewrite H. reflexivity. Qed.

Lemma try_Raise_caught {A} (m : M A) h k s s' e :
  m s = (s', Raise e) -> h e = Some k -> try_except m h s = k s'.
Proof. intros H Hh. unfold try_except. rewrite H, Hh. reflexivity. Qed.

Lemma try_Raise_passed {A} (m : M A) h s s' e :
  m s = (s', Raise e) -> h e = None -> try_except m h s = (s', Raise e).
Proof. intros H Hh. unfold try_except. rewrite H, Hh. reflexivity. Qed.

(** ** Bytes *)

Lemma byte_eqb_true b c : Byte.eqb b c = true <-> b = c.
Proof.
  split.
  - apply Byte.byte_dec_bl.
  - intros ->. apply Byte.byte_dec_lb. reflexivity.
Qed.

(** [startswith] is the comparison of a prefix of the right length. *)
Lemma startswith_take s pre :
  startswith s pre = true <-> take (length pre) s = pre.
Proof.
  revert s. induction pre as [|b pre IH]; intros s; simpl.
  - destruct s; split; reflexivity.
  - destruct s as [|c s]; simpl.
    + split; discriminate.
    + rewrite andb_true_iff, byte_eqb_true, IH. split.
      * intros [-> ->]. reflexivity.
      * intros [= -> ->]. split; reflexivity.
Qed.

Lemma startswith_app pre tail : startswith (pre ++ tail) pre = true.
Proof.
  apply startswith_take. rewrite take_app_length. reflexivity.
Qed.

(** A read of [n] bytes returns at most [n] bytes, so it starts with a
    signature of [n] bytes exactly when the file does. *)
Lemma startswith_read s pre :
  startswith (take (length pre) s) pre = startswith s pre.
Proof.
  revert s. induction pre as [|b pre IH]; intros s; simpl.
  - destruct s; reflexivity.
  - destruct s as [|c s]; simpl; [reflexivity|]. rewrite IH. reflexivity.
Qed.

(** ** What the validators compute *)

(** ** Lookups *)

Lemma os_stat_state {O : Platform} p s : (os_stat p s).1 = s.
Proof. unfold os_stat. destruct (stat s p); reflexivity. Qed.

Lemma path_exists_run {O : Platform} p s :
  path_exists p s =
  (s, match stat s p with
      | Some _ => Return true
      | None =>
          match os_refuses (str p) with
          | Some msg => Raise (OSError EOther msg)
          | None => Return false
          end
      end).
Proof.
  unfold path_exists, try_except, bind, os_stat, lookup_failure, ret.
  destruct (stat s p) as [n|]; [reflexivity|].
  destruct (os_refuses (str p)); reflexivity.
Qed.

Lemma is_file_run {O : Platform} p s :
  is_file p s =
  (s, match stat s p with
      | Some (File _ _) => Return true
      | Some Dir => Return false
      | None =>
          match os_refuses (str p) with
          | Some msg => Raise (OSError EOther msg)
          | None => Return false
          end
      end).
Proof.
  unfold is_file, try_except, bind, os_stat, lookup_failure, ret.
  destruct (stat s p) as [[|c re]|]; try reflexivity.
  destruct (os_refuses (str p)); reflexivity.
Qed.

Lemma is_dir_run {O : Platform} p s :
  is_dir p s =
  (s, match stat s p with
      | Some Dir => Return true
      | Some (File _ _) => Return false
      | None =>
          match os_refuses (str p) with
          | Some msg => Raise (OSError EOther msg)
          | None => Return false
          end
      end).
Proof.
  unfold is_dir, try_except, bind, os_stat, lookup_failure, ret.
  destruct (stat s p) as [[|c re]|]; try reflexivity.
  destruct (os_refuses (str p)); reflexivity.
Qed.

Lemma read_bytes_state {O : Platform} p s : (read_bytes p s).1 = s.
Proof.
  unfold read_bytes. destruct (stat s p) as [[|c [msg|]]|]; reflexivity.
Qed.

Lemma read_bytes_raises {O : Platform} p s s' e :
  read_bytes p s = (s', Raise e) -> exists kind msg, e = OSError kind msg.
Proof.
  unfold read_bytes, lookup_failure.
  destruct (stat s p) as [[|c [msg|]]|].
  - intros [= _ <-]. eauto.
  - intros [= _ <-]. eauto.
  - intros [=].
  - destruct (os_refuses (str p)); intros [= _ <-]; eauto.
Qed.

Lemma read_named_state {O : Platform} x s : (read_named x s).1 = s.
Proof.
  destruct x as [f|p]; [|apply read_bytes_state].
  unfold read_named. destruct (os_refuses f); [reflexivity|].
  destruct (String.eqb f ""); [reflexivity|].
  destruct (stat s (parse_path f)) as [[|c re]|] eqn:Hst;
    try apply read_bytes_state.
  destruct (names_directory f); [reflexivity|apply read_bytes_state].
Qed.

(** Opening a file for reading raises nothing but [OSError]. *)
Lemma read_named_raises {O : Platform} x s s' e :
  read_named x s = (s', Raise e) -> exists kind msg, e = OSError kind msg.
Proof.
  destruct x as [f|p]; [|apply read_bytes_raises].
  unfold read_named. destruct (os_refuses f); [intros [= _ <-]; eauto|].
  destruct (String.eqb f ""); [intros [= _ <-]; eauto|].
  destruct (stat s (parse_path f)) as [[|c re]|] eqn:Hst;
    try apply read_bytes_raises.
  destruct (names_directory f); [intros [= _ <-]; eauto|apply read_bytes_raises].
Qed.

Lemma parse_path_empty_is_dir s : stat s (parse_path "") = Some Dir.
Proof. reflexivity. Qed.

(** Where [Path(x)] is a regular file, [open(x, 'rb')] reads that file when
    it opens the file at all. *)
Lemma read_named_opens {O : Platform} x s c re :
  stat s (Path x) = Some (File c re) -> opens_the_file x = true ->
  read_named x s =
  (s, match re with
      | None => Return c
      | Some msg => Raise (OSError EOther msg)
      end).
Proof.
  intros Hst Hopen. destruct x as [f|p]; cbn [Path] in Hst.
  - unfold opens_the_file in Hopen. apply andb_true_iff in Hopen as [Hdir Hos].
    apply negb_true_iff in Hdir.
    unfold read_named. destruct (os_refuses f); [discriminate|].
    destruct (String.eqb_spec f "") as [->|_];
      [rewrite parse_path_empty_is_dir in Hst; discriminate|].
    rewrite Hst, Hdir. unfold read_bytes. rewrite Hst.
    destruct re; reflexivity.
  - unfold read_named, read_bytes. rewrite Hst. destruct re; reflexivity.
Qed.

Lemma read_named_fails {O : Platform} x s c re :
  stat s (Path x) = Some (File c re) -> opens_the_file x = false ->
  exists kind msg, read_named x s = (s, Raise (OSError kind msg)).
Proof.
  intros Hst Hopen. destruct x as [f|p]; [|discriminate].
  cbn [Path] in Hst. unfold opens_the_file in Hopen. unfold read_named.
  destruct (os_refuses f) as [msg|]; [eauto|].
  rewrite andb_true_r in Hopen. apply negb_false_iff in Hopen.
  destruct (String.eqb_spec f "") as [->|_]; [eauto|].
  rewrite Hst, Hopen. eauto.
Qed.

(** ** What the validators compute *)

Lemma validate_file_run {O : Platform} x s :
  Validator.validate_file x s =
  (s, match stat s (Path x) with
      | None =>
          match os_refuses (str (Path x)) with
          | Some msg => Raise (OSError EOther msg)
          | None => Raise (FileValidationError ("File not found: " +:+ fmt x))
          end
      | Some Dir => Raise (FileValidationError ("Path is not a file: " +:+ fmt x))
      | Some (File _ _) => Return true
      end).
Proof.
  unfold Validator.validate_file. unfold bind at 1. rewrite path_exists_run.
  destruct (stat s (Path x)) as [[|c re]|] eqn:Hst; cbn [negb].
  - unfold bind. rewrite is_file_run, Hst. reflexivity.
  - unfold bind. rewrite is_file_run, Hst. reflexivity.
  - destruct (os_refuses (str (Path x))); reflexivity.
Qed.

(** The [try] of [validate_pdf] and [validate_image] around the read of
    the header. *)
Lemma header_check_run {O : Platform} x n magic (text : string) s :
  length magic = n ->
  try_except
    (header <- open_rb_read_named x n ;;
     if negb (startswith header magic) then
       raise (FileValidationError text)
     else ret tt)
    (except_OSError (fun e =>
       raise (FileValidationError
                ("Error reading file " +:+ fmt x +:+ ": " +:+ str_exn e)))) s =
  (s, match (read_named x s).2 with
      | Raise e =>
          Raise (FileValidationError
                   ("Error reading file " +:+ fmt x +:+ ": " +:+ str_exn e))
      | Return c =>
          if startswith c magic then Return tt
          else Raise (FileValidationError text)
      end).
Proof.
  intros <-. unfold try_except, open_rb_read_named. unfold bind at 1 2.
  pose proof (read_named_state x s) as Hs.
  destruct (read_named x s) as [s1 [c|e]] eqn:Hread; cbn [fst snd] in *; subst s1.
  - unfold ret at 1. cbv beta iota. rewrite startswith_read.
    destruct (startswith c magic); reflexivity.
  - destruct (read_named_raises _ _ _ _ Hread) as (kind & msg & ->). reflexivity.
Qed.

Lemma validate_pdf_run {O : Platform} x s :
  Validator.validate_pdf x s =
  (s, match stat s (Path x) with
      | None =>
          match os_refuses (str (Path x)) with
          | Some msg => Raise (OSError EOther msg)
          | None => Raise (FileValidationError ("File not found: " +:+ fmt x))
          end
      | Some Dir => Raise (FileValidationError ("Path is not a file: " +:+ fmt x))
      | Some (File _ _) =>
          match (read_named x s).2 with
          | Raise e =>
              Raise (FileValidationError
                       ("Error reading file " +:+ fmt x +:+ ": " +:+ str_exn e))
          | Return c =>
              if startswith c PDF_SIGNATURE then Return true
              else Raise (FileValidationError ("Invalid PDF file header: " +:+ fmt x))
          end
      end).
Proof.
  unfold Validator.validate_pdf.
  unfold bind at 1. rewrite validate_file_run.
  destruct (stat s (Path x)) as [[|c re]|] eqn:Hst; try reflexivity.
  - unfold bind at 1.
    change (Validator.getitem Validator.MAGIC_NUMBERS "pdf")
      with (ret (A := list byte) PDF_SIGNATURE).
    unfold bind at 2. unfold ret at 1. cbv beta iota.
    rewrite (header_check_run x 4 PDF_SIGNATURE _ s eq_refl).
    destruct ((read_named x s).2) as [d|e]; [|reflexivity].
    destruct (startswith d PDF_SIGNATURE); reflexivity.
  - destruct (os_refuses (str (Path x))); reflexivity.
Qed.

Lemma image_signature_supported ext :
  ext ∈ ["png"; "jpg"; "jpeg"] <-> is_Some (image_signature ext).
Proof.
  unfold image_signature. rewrite !elem_of_cons, elem_of_nil.
  destruct (String.eqb_spec ext "png") as [->|Hpng].
  { split; [intros _; eexists; reflexivity | intros _; left; reflexivity]. }
  destruct (String.eqb_spec ext "jpg") as [->|Hjpg].
  { split; [intros _; eexists; reflexivity | intros _; right; left; reflexivity]. }
  destruct (String.eqb_spec ext "jpeg") as [->|Hjpeg].
  { split; [intros _; eexists; reflexivity
           | intros _; right; right; left; reflexivity]. }
  split.
  - intros [?|[?|[?|[]]]]; contradiction.
  - intros [m [=]].
Qed.

(** On the three supported extensions the dictionary of the code and the
    table of the specification agree. *)
Lemma MAGIC_NUMBERS_image ext magic :
  image_signature ext = Some magic ->
  Validator.MAGIC_NUMBERS !! ext = Some magic /\ magic <> [].
Proof.
  unfold image_signature.
  destruct (String.eqb_spec ext "png") as [->|_].
  { intros [= <-]. split; [reflexivity | discriminate]. }
  destruct (String.eqb_spec ext "jpg") as [->|_].
  { intros [= <-]. split; [reflexivity | discriminate]. }
  destruct (String.eqb_spec ext "jpeg") as [->|_].
  { intros [= <-]. split; [reflexivity | discriminate]. }
  discriminate.
Qed.

Lemma validate_image_run {O : Platform} x s :
  Validator.validate_image x s =
  (s, match stat s (Path x) with
      | None =>
          match os_refuses (str (Path x)) with
          | Some msg => Raise (OSError EOther msg)
          | None => Raise (FileValidationError ("File not found: " +:+ fmt x))
          end
      | Some Dir => Raise (FileValidationError ("Path is not a file: " +:+ fmt x))
      | Some (File _ _) =>
          match image_signature (image_ext (Path x)) with
          | None =>
              Raise (FileValidationError
                       ("Unsupported image extension: " +:+ image_ext (Path x)))
          | Some magic =>
              match (read_named x s).2 with
              | Raise e =>
                  Raise (FileValidationError
                           ("Error reading file " +:+ fmt x +:+ ": " +:+ str_exn e))
              | Return c =>
                  if startswith c magic then Return true
                  else Raise (FileValidationError
                                ("Invalid " +:+ upper (image_ext (Path x))
                                 +:+ " file header: " +:+ fmt x))
              end
          end
      end).
Proof.
  unfold Validator.validate_image.
  unfold bind at 1. rewrite validate_file_run.
  destruct (stat s (Path x)) as [[|c re]|] eqn:Hst; try reflexivity;
    [|destruct (os_refuses (str (Path x))); reflexivity].
  fold (image_ext (Path x)). generalize (image_ext (Path x)) as ext. intros ext.
  destruct (image_signature ext) as [magic|] eqn:Hsig.
  - assert (Hin : ext ∈ ["png"; "jpg"; "jpeg"])
      by (apply image_signature_supported; rewrite Hsig; eexists; reflexivity).
    rewrite (bool_decide_eq_true_2 _ Hin).
    destruct (MAGIC_NUMBERS_image _ _ Hsig) as [-> Hne].
    destruct magic as [|b magic]; [contradiction|]. clear Hne.
    change (negb true) with false. cbv beta iota zeta.
    unfold bind at 1.
    rewrite (header_check_run x _ (b :: magic) _ s eq_refl).
    destruct ((read_named x s).2) as [d|e]; [|reflexivity].
    destruct (startswith d (b :: magic)); reflexivity.
  - assert (Hin : ext ∉ ["png"; "jpg"; "jpeg"]).
    { intros Hin. apply image_signature_supported in Hin.
      rewrite Hsig in Hin. destruct Hin as [m [=]]. }
    rewrite (bool_decide_eq_false_2 _ Hin). reflexivity.
Qed.

(** ** The validators *)

(** C1. For a path at which a regular file exists, [validate_pdf] returns
    [True] if and only if the first 4 bytes read from the file are [%PDF]
    (whatever follows them); in every other case it raises
    [FileValidationError]. An I/O error while reading the header is
    wrapped into a [FileValidationError] too: the file cannot be read, or
    it does not open under the name as it was given ([open] is called on
    the argument itself, and a [str] that ends in [/] or [/.], which
    [Path] drops, or that the system refuses, opens no regular file). *)
Theorem validate_pdf_signature {O : Platform} (s : fs) (x : pathlike)
    (c : list byte) (re : option string) :
  stat s (Path x) = Some (File c re) ->
  (Validator.validate_pdf x s = (s, Return true) <->
     opens_the_file x = true
     /\ leading_bytes c re 4 = Some [x25; x50; x44; x46])
  /\ (~ (opens_the_file x = true
         /\ leading_bytes c re 4 = Some [x25; x50; x44; x46]) ->
      exists msg, Validator.validate_pdf x s = (s, Raise (FileValidationError msg)))
  /\ (forall tail,
        opens_the_file x = true -> re = None -> c = [x25; x50; x44; x46] ++ tail ->
        Validator.validate_pdf x s = (s, Return true))
  /\ (forall msg, opens_the_file x = true -> re = Some msg ->
      Validator.validate_pdf x s =
      (s, Raise (FileValidationError
                   ("Error reading file " +:+ fmt x +:+ ": " +:+ msg))))
  /\ (opens_the_file x = false ->
      exists msg,
        Validator.validate_pdf x s =
        (s, Raise (FileValidationError
                     ("Error reading file " +:+ fmt x +:+ ": " +:+ msg)))).
Proof.
  intros Hst. rewrite validate_pdf_run, Hst.
  change [x25; x50; x44; x46] with PDF_SIGNATURE.
  destruct (opens_the_file x) eqn:Hopen.
  - rewrite (read_named_opens x s c re Hst Hopen). cbn [snd].
    destruct re as [msg|]; cbn [leading_bytes str_exn].
    + split; [split; [discriminate|intros [_ [=]]]|].
      split; [intros _; eexists; reflexivity|].
      split; [intros tail _ [=]|].
      split; [intros msg' _ [= <-]; reflexivity|discriminate].
    + change 4 with (length PDF_SIGNATURE).
      destruct (startswith c PDF_SIGNATURE) eqn:Hsw.
      * apply startswith_take in Hsw. rewrite Hsw.
        split; [split; [auto|reflexivity]|].
        split; [intros Hne; exfalso; apply Hne; auto|].
        split; [reflexivity|]. split; [intros msg _ [=]|discriminate].
      * assert (Hne : take (length PDF_SIGNATURE) c <> PDF_SIGNATURE).
        { intros Heq. apply startswith_take in Heq. congruence. }
        split; [split; [discriminate|intros [_ [= Heq]]; contradiction]|].
        split; [intros _; eexists; reflexivity|].
        split; [|split; [intros msg _ [=]|discriminate]].
        intros tail _ _ Hc.
        assert (Htrue : startswith c PDF_SIGNATURE = true)
          by (rewrite Hc; exact (startswith_app PDF_SIGNATURE tail)).
        congruence.
  - destruct (read_named_fails x s c re Hst Hopen) as (kind & msg & Hread).
    rewrite Hread. cbn [snd str_exn].
    split; [split; [discriminate|intros [[=] _]]|].
    split; [intros _; eexists; reflexivity|].
    split; [intros tail [=]|]. split; [intros m [=]|].
    intros _. eexists. reflexivity.
Qed.

Lemma validate_pdf_signature_witness :
  stat Toy.disk (Path (PStr "docs/a.pdf")) = Some (File Toy.two_pages None)
  /\ Validator.validate_pdf (PStr "docs/a.pdf") Toy.disk = (Toy.disk, Return true).
Proof.
  split; [reflexivity|].
  apply (validate_pdf_signature Toy.disk (PStr "docs/a.pdf") Toy.two_pages None);
    [reflexivity|]. split; reflexivity.
Defined.

(** C2. For a path at which a regular file exists, [validate_image]
    returns [True] if and only if the extension of the file, lowercased
    and without its leading dot, is [png], [jpg] or [jpeg] and the leading
    bytes read from the file are the signature of that extension (8 bytes
    for [png], 3 bytes for [jpg] and [jpeg]); an unsupported extension and
    a prefix that differs both raise [FileValidationError], and so does a
    file that does not open under the name as it was given. *)
Theorem validate_image_signature {O : Platform} (s : fs) (x : pathlike)
    (c : list byte) (re : option string) :
  stat s (Path x) = Some (File c re) ->
  (Validator.validate_image x s = (s, Return true) <->
     opens_the_file x = true
     /\ exists magic, image_signature (image_ext (Path x)) = Some magic
                      /\ leading_bytes c re (length magic) = Some magic)
  /\ (image_ext (Path x) ∉ ["png"; "jpg"; "jpeg"] ->
      exists ext,
        Validator.validate_image x s =
        (s, Raise (FileValidationError ("Unsupported image extension: " +:+ ext)))
        /\ (ascii_only (suffix (Path x)) = true -> ext = image_ext (Path x)))
  /\ (forall magic, image_signature (image_ext (Path x)) = Some magic ->
      opens_the_file x = true -> re = None -> take (length magic) c <> magic ->
      Validator.validate_image x s =
      (s, Raise (FileValidationError
                   ("Invalid " +:+ upper (image_ext (Path x))
                    +:+ " file header: " +:+ fmt x))))
  /\ (forall magic, image_signature (image_ext (Path x)) = Some magic ->
      opens_the_file x = false ->
      exists msg,
        Validator.validate_image x s =
        (s, Raise (FileValidationError
                     ("Error reading file " +:+ fmt x +:+ ": " +:+ msg))))
  /\ (Validator.validate_image x s = (s, Return true)
      \/ exists msg,
          Validator.validate_image x s = (s, Raise (FileValidationError msg))).
Proof.
  intros Hst. rewrite validate_image_run, Hst.
  generalize (image_ext (Path x)) as ext. intros ext.
  destruct (image_signature ext) as [magic|] eqn:Hsig.
  - assert (Hin : ext ∈ ["png"; "jpg"; "jpeg"])
      by (apply image_signature_supported; rewrite Hsig; eexists; reflexivity).
    destruct (opens_the_file x) eqn:Hopen.
    + rewrite (read_named_opens x s c re Hst Hopen). cbn [snd].
      destruct re as [msg|]; cbn [leading_bytes str_exn].
      * split; [split; [discriminate|intros (_ & m & _ & [=])]|].
        split; [intros Hnot; contradiction|].
        split; [intros m _ _ [=]|]. split; [intros m _ [=]|].
        right. eexists. reflexivity.
      * destruct (startswith c magic) eqn:Hsw.
        -- pose proof (proj1 (startswith_take c magic) Hsw) as Htk.
           split; [split; [|reflexivity]|].
           { intros _. split; [reflexivity|]. exists magic. rewrite Htk. auto. }
           split; [intros Hnot; contradiction|].
           split; [intros m [= <-] _ _ Hne; contradiction|].
           split; [intros m _ [=]|]. left. reflexivity.
        -- assert (Hne : take (length magic) c <> magic).
           { intros Heq. apply startswith_take in Heq. congruence. }
           split; [split; [discriminate|]|].
           { intros (_ & m & [= <-] & [= Heq]). contradiction. }
           split; [intros Hnot; contradiction|].
           split; [intros m [= <-] _ _ _; reflexivity|].
           split; [intros m _ [=]|]. right. eexists. reflexivity.
    + destruct (read_named_fails x s c re Hst Hopen) as (kind & msg & Hread).
      rewrite Hread. cbn [snd str_exn].
      split; [split; [discriminate|intros [[=] _]]|].
      split; [intros Hnot; contradiction|].
      split; [intros m _ [=]|].
      split; [intros m _ _; eexists; reflexivity|].
      right. eexists. reflexivity.
  - assert (Hnot : ext ∉ ["png"; "jpg"; "jpeg"]).
    { intros Hin. apply image_signature_supported in Hin.
      rewrite Hsig in Hin. destruct Hin as [m [=]]. }
    split; [split; [discriminate|intros (_ & m & [=] & _)]|].
    split; [intros _; exists ext; split; [reflexivity|intros _; reflexivity]|].
    split; [intros m [=]|]. split; [intros m [=]|].
    right. eexists. reflexivity.
Qed.

Lemma validate_image_signature_witness :
  stat Toy.disk (Path (PStr "docs/pic.PNG"))
  = Some (File [x89; x50; x4e; x47; x0d; x0a; x1a; x0a; x01] None)
  /\ Validator.validate_image (PStr "docs/pic.PNG") Toy.disk = (Toy.disk, Return true).
Proof.
  split; [reflexivity|].
  apply (validate_image_signature Toy.disk (PStr "docs/pic.PNG")
           [x89; x50; x4e; x47; x0d; x0a; x1a; x0a; x01] None eq_refl).
  split; [reflexivity|]. exists PNG_SIGNATURE. split; reflexivity.
Defined.

(** What [validate_file] lets through: the [OSError] of [Path.exists] for
    a name that the system refuses to look up. *)
Lemma validate_file_shape {O : Platform} x s :
  exists o, Validator.validate_file x s = (s, o)
    /\ (o = Return true
        \/ (exists msg, o = Raise (FileValidationError msg))
        \/ (exists msg, o = Raise (OSError EOther msg)
                        /\ stat s (Path x) = None
                        /\ os_refuses (str (Path x)) = Some msg)).
Proof.
  rewrite validate_file_run. eexists. split; [reflexivity|].
  destruct (stat s (Path x)) as [[|c re]|]; eauto.
  destruct (os_refuses (str (Path x))) as [msg|]; eauto 6.
Qed.

Lemma validate_pdf_shape {O : Platform} x s :
  exists o, Validator.validate_pdf x s = (s, o)
    /\ (o = Return true
        \/ (exists msg, o = Raise (FileValidationError msg))
        \/ (exists msg, o = Raise (OSError EOther msg)
                        /\ stat s (Path x) = None
                        /\ os_refuses (str (Path x)) = Some msg)).
Proof.
  rewrite validate_pdf_run. eexists. split; [reflexivity|].
  destruct (stat s (Path x)) as [[|c re]|]; eauto.
  - destruct ((read_named x s).2) as [d|e]; eauto.
    destruct (startswith d PDF_SIGNATURE); eauto.
  - destruct (os_refuses (str (Path x))) as [msg|]; eauto 6.
Qed.

Lemma validate_image_shape {O : Platform} x s :
  exists o, Validator.validate_image x s = (s, o)
    /\ (o = Return true
        \/ (exists msg, o = Raise (FileValidationError msg))
        \/ (exists msg, o = Raise (OSError EOther msg)
                        /\ stat s (Path x) = None
                        /\ os_refuses (str (Path x)) = Some msg)).
Proof.
  rewrite validate_image_run. eexists. split; [reflexivity|].
  destruct (stat s (Path x)) as [[|c re]|]; eauto.
  - destruct (image_signature (image_ext (Path x))) as [magic|]; eauto.
    destruct ((read_named x s).2) as [d|e]; eauto.
    destruct (startswith d magic); eauto.
  - destruct (os_refuses (str (Path x))) as [msg|]; eauto 6.
Qed.



(** ** validate_paths *)

(** One turn of the loop of [validate_paths] whose check passes. *)
Lemma validate_paths_loop_cons {O : Platform} p rest file_type acc s :
  (if String.eqb file_type "pdf"
   then Validator.validate_pdf (PPath (Path p)) ;; ret tt
   else if String.eqb file_type "image"
        then Validator.validate_image (PPath (Path p)) ;; ret tt
        else ret tt) s = (s, Return tt) ->
  Validator.validate_paths_loop (p :: rest) file_type acc s =
  Validator.validate_paths_loop rest file_type (acc ++ [Path p]) s.
Proof.
  intros Hstep. simpl. unfold bind at 1. rewrite Hstep. reflexivity.
Qed.

(** One turn of the loop whose check raises. *)
Lemma validate_paths_loop_raise {O : Platform} p rest file_type acc s e :
  (if String.eqb file_type "pdf"
   then Validator.validate_pdf (PPath (Path p)) ;; ret tt
   else if String.eqb file_type "image"
        then Validator.validate_image (PPath (Path p)) ;; ret tt
        else ret tt) s = (s, Raise e) ->
  Validator.validate_paths_loop (p :: rest) file_type acc s = (s, Raise e).
Proof.
  intros Hstep. simpl. unfold bind at 1. rewrite Hstep. reflexivity.
Qed.

Lemma validate_paths_loop_pass {O : Platform} (check : pathlike -> M unit) paths file_type acc s :
  (forall p, check p =
     if String.eqb file_type "pdf"
     then Validator.validate_pdf (PPath (Path p)) ;; ret tt
     else if String.eqb file_type "image"
          then Validator.validate_image (PPath (Path p)) ;; ret tt
          else ret tt) ->
  Forall (fun p => check p s = (s, Return tt)) paths ->
  Validator.validate_paths_loop paths file_type acc s =
  (s, Return (acc ++ map Path paths)).
Proof.
  intros Hcheck Hall. revert acc.
  induction Hall as [|p rest Hp _ IH]; intros acc.
  - simpl. rewrite app_nil_r. reflexivity.
  - rewrite validate_paths_loop_cons by (rewrite <- Hcheck; exact Hp).
    rewrite IH, <- app_assoc. reflexivity.
Qed.

Lemma validate_paths_loop_stop {O : Platform} (check : pathlike -> M unit)
    before p after file_type acc s e :
  (forall p, check p =
     if String.eqb file_type "pdf"
     then Validator.validate_pdf (PPath (Path p)) ;; ret tt
     else if String.eqb file_type "image"
          then Validator.validate_image (PPath (Path p)) ;; ret tt
          else ret tt) ->
  Forall (fun q => check q s = (s, Return tt)) before ->
  check p s = (s, Raise e) ->
  Validator.validate_paths_loop (before ++ p :: after) file_type acc s =
  (s, Raise e).
Proof.
  intros Hcheck Hall Hp. revert acc.
  induction Hall as [|q rest Hq _ IH]; intros acc.
  - apply validate_paths_loop_raise. rewrite <- Hcheck. exact Hp.
  - rewrite <- app_comm_cons.
    rewrite validate_paths_loop_cons by (rewrite <- Hcheck; exact Hq).
    apply IH.
Qed.

Lemma then_tt_Return (v : M bool) s b :
  v s = (s, Return b) -> (v ;; ret tt) s = (s, Return tt).
Proof. intros H. unfold bind. rewrite H. reflexivity. Qed.

Lemma then_tt_Raise (v : M bool) s e :
  v s = (s, Raise e) -> (v ;; ret tt) s = (s, Raise e).
Proof. intros H. unfold bind. rewrite H. reflexivity. Qed.

(** C7. For [kind] one of [pdf] and [image], [validate_paths] applies the
    validator of that kind to the paths in input order: when every path
    passes it returns all of them, as [Path] values, in input order; it
    raises what the first invalid path raises, whatever paths come after
    it. *)
Theorem validate_paths_in_order {O : Platform} (s : fs) (paths : list pathlike)
    (kind : string) (v : pathlike -> M bool) :
  (kind = "pdf" /\ v = Validator.validate_pdf)
  \/ (kind = "image" /\ v = Validator.validate_image) ->
  (Forall (fun p => v (PPath (Path p)) s = (s, Return true)) paths ->
   Validator.validate_paths paths kind s = (s, Return (map Path paths)))
  /\ (forall before p after e,
        paths = before ++ p :: after ->
        Forall (fun q => v (PPath (Path q)) s = (s, Return true)) before ->
        v (PPath (Path p)) s = (s, Raise e) ->
        Validator.validate_paths paths kind s = (s, Raise e)).
Proof.
  intros Hkind.
  assert (Hcheck : forall p, (v (PPath (Path p)) ;; ret tt) =
     if String.eqb kind "pdf"
     then Validator.validate_pdf (PPath (Path p)) ;; ret tt
     else if String.eqb kind "image"
          then Validator.validate_image (PPath (Path p)) ;; ret tt
          else ret tt).
  { intros p. destruct Hkind as [[-> ->]|[-> ->]]; reflexivity. }
  split.
  - intros Hall. unfold Validator.validate_paths.
    rewrite (validate_paths_loop_pass _ paths kind [] s Hcheck); [reflexivity|].
    eapply Forall_impl; [exact Hall|].
    intros p Hp. cbv beta in *. eapply then_tt_Return. exact Hp.
  - intros before p after e -> Hall Hp. unfold Validator.validate_paths.
    apply (validate_paths_loop_stop _ before p after kind [] s e Hcheck).
    + eapply Forall_impl; [exact Hall|].
      intros q Hq. cbv beta in *. eapply then_tt_Return. exact Hq.
    + apply then_tt_Raise. exact Hp.
Qed.

Lemma validate_paths_in_order_witness :
  Validator.validate_paths
    [PStr "docs/a.pdf"; PStr "docs/fake.pdf"; PStr "docs/missing.pdf"] "pdf" Toy.disk
  = (Toy.disk,
     Raise (FileValidationError "Invalid PDF file header: docs/fake.pdf")).
Proof.
  refine (proj2 (validate_paths_in_order Toy.disk _ "pdf" Validator.validate_pdf
                   (or_introl (conj eq_refl eq_refl)))
            [PStr "docs/a.pdf"] (PStr "docs/fake.pdf") [PStr "docs/missing.pdf"]
            _ eq_refl _ _).
  - constructor; [reflexivity | constructor].
  - reflexivity.
Defined.

(** C9. For a [file_type] that is neither [pdf] nor [image],
    [validate_paths] validates nothing: it returns every path as a [Path]
    value and does not raise, whatever is or is not at those paths. *)
Theorem validate_paths_unknown_type {O : Platform} (s : fs) (paths : list pathlike)
    (file_type : string) :
  file_type <> "pdf" -> file_type <> "image" ->
  Validator.validate_paths paths file_type s = (s, Return (map Path paths)).
Proof.
  intros Hpdf Himage. unfold Validator.validate_paths.
  apply (validate_paths_loop_pass (fun _ => ret tt)).
  - intros p.
    destruct (String.eqb_spec file_type "pdf"); [contradiction|].
    destruct (String.eqb_spec file_type "image"); [contradiction|].
    reflexivity.
  - apply Forall_forall. intros p _. reflexivity.
Qed.

Lemma validate_paths_unknown_type_witness :
  "pdfs" <> "pdf" /\ "pdfs" <> "image"
  /\ Validator.validate_paths [PStr "nowhere/x.bin"; PStr "docs"] "pdfs" ∅
     = (∅, Return [parse_path "nowhere/x.bin"; parse_path "docs"]).
Proof.
  split; [discriminate|]. split; [discriminate|].
  apply (validate_paths_unknown_type ∅ [PStr "nowhere/x.bin"; PStr "docs"] "pdfs");
    discriminate.
Defined.

(** ** Which exceptions leave the validators and the file system *)

(** Validation leaves the file system as it is and raises nothing but
    [FileValidationError] and the [OSError] of a refused lookup. *)
Lemma validate_pdf_raises {O : Platform} x s :
  exists o, Validator.validate_pdf x s = (s, o)
    /\ forall e, o = Raise e ->
         (exists msg, e = FileValidationError msg)
         \/ (exists msg, e = OSError EOther msg).
Proof.
  destruct (validate_pdf_shape x s) as (o & Hv & Ho). exists o.
  split; [exact Hv|]. intros e ->.
  destruct Ho as [[=]|[[msg [= ->]]|(msg & [= ->] & _)]]; eauto.
Qed.

Lemma validate_image_raises {O : Platform} x s :
  exists o, Validator.validate_image x s = (s, o)
    /\ forall e, o = Raise e ->
         (exists msg, e = FileValidationError msg)
         \/ (exists msg, e = OSError EOther msg).
Proof.
  destruct (validate_image_shape x s) as (o & Hv & Ho). exists o.
  split; [exact Hv|]. intros e ->.
  destruct Ho as [[=]|[[msg [= ->]]|(msg & [= ->] & _)]]; eauto.
Qed.

Lemma validate_paths_loop_shape {O : Platform} paths file_type acc s :
  exists o, Validator.validate_paths_loop paths file_type acc s = (s, o)
    /\ forall e, o = Raise e ->
         (exists msg, e = FileValidationError msg)
         \/ (exists msg, e = OSError EOther msg).
Proof.
  revert acc. induction paths as [|p rest IH]; intros acc.
  - simpl. eexists. split; [reflexivity|]. intros e [=].
  - simpl. unfold bind at 1.
    assert (Hstep : exists o,
      (if String.eqb file_type "pdf"
       then Validator.validate_pdf (PPath (Path p)) ;; ret tt
       else if String.eqb file_type "image"
            then Validator.validate_image (PPath (Path p)) ;; ret tt
            else ret tt) s = (s, o)
      /\ forall e, o = Raise e ->
           (exists msg, e = FileValidationError msg)
           \/ (exists msg, e = OSError EOther msg)).
    { destruct (String.eqb file_type "pdf");
        [|destruct (String.eqb file_type "image")].
      - destruct (validate_pdf_raises (PPath (Path p)) s) as (o & Hv & Ho).
        unfold bind. rewrite Hv. destruct o as [b|e].
        + eexists. split; [reflexivity|]. intros e [=].
        + eexists. split; [reflexivity|]. intros e' [= <-]. eauto.
      - destruct (validate_image_raises (PPath (Path p)) s) as (o & Hv & Ho).
        unfold bind. rewrite Hv. destruct o as [b|e].
        + eexists. split; [reflexivity|]. intros e [=].
        + eexists. split; [reflexivity|]. intros e' [= <-]. eauto.
      - eexists. split; [reflexivity|]. intros e [=]. }
    destruct Hstep as (o & -> & Ho). destruct o as [[]|e].
    + apply IH.
    + eexists. split; [reflexivity|]. intros e' [= <-]. eauto.
Qed.

Lemma validate_paths_shape {O : Platform} paths file_type s :
  exists o, Validator.validate_paths paths file_type s = (s, o)
    /\ forall e, o = Raise e ->
         (exists msg, e = FileValidationError msg)
         \/ (exists msg, e = OSError EOther msg).
Proof. apply validate_paths_loop_shape. Qed.

(** [os.mkdir] and [Path.mkdir] raise nothing but [OSError]. *)
Lemma os_mkdir_raises p s s' e :
  os_mkdir p s = (s', Raise e) -> exists kind msg, e = OSError kind msg.
Proof.
  unfold os_mkdir.
  destruct (stat s p) as [n|]; [intros [= _ <-]; eauto|].
  destruct (stat s (parent p)) as [[|c re]|]; intros [= _ <-]; eauto.
Qed.

Lemma retry_is_dir_raises {O : Platform} p e0 s s' e :
  retry_is_dir p e0 s = (s', Raise e) ->
  e = e0 \/ exists msg, e = OSError EOther msg.
Proof.
  unfold retry_is_dir, bind, ret, raise. rewrite is_dir_run.
  destruct (stat s p) as [[|c re]|].
  - intros [=].
  - intros [= _ <-]. auto.
  - destruct (os_refuses (str p)); intros [= _ <-]; eauto.
Qed.

Lemma mkdir_exist_ok_raises {O : Platform} p s s' e :
  mkdir_exist_ok p s = (s', Raise e) -> exists kind msg, e = OSError kind msg.
Proof.
  unfold mkdir_exist_ok, try_except.
  destruct (os_mkdir p s) as [s1 [[]|e1]] eqn:Hmk; [intros [=]|].
  destruct (os_mkdir_raises _ _ _ _ Hmk) as (kind & msg & ->).
  destruct kind;
    try (intros H; apply retry_is_dir_raises in H as [->|[m ->]]; eauto).
  intros [= _ <-]. eauto.
Qed.

Lemma mkdir_from_raises {O : Platform} r rparts s s' e :
  mkdir_from r rparts s = (s', Raise e) -> exists kind msg, e = OSError kind msg.
Proof.
  revert s s' e. induction rparts as [|x up IH]; intros s s' e; simpl;
    unfold try_except;
    (destruct (os_mkdir _ s) as [s1 [[]|e1]] eqn:Hmk; [intros [=]|]);
    destruct (os_mkdir_raises _ _ _ _ Hmk) as (kind & msg & ->);
    destruct kind;
    try (intros H; apply retry_is_dir_raises in H as [->|[m ->]]; eauto).
  - intros [= _ <-]. eauto.
  - unfold bind. destruct (mkdir_from r up s1) as [s2 [[]|e2]] eqn:Hup.
    + apply mkdir_exist_ok_raises.
    + intros [= _ <-]. eapply IH. exact Hup.
Qed.

Lemma mkdir_parents_raises {O : Platform} p s s' e :
  mkdir_parents p s = (s', Raise e) -> exists kind msg, e = OSError kind msg.
Proof. apply mkdir_from_raises. Qed.

(** ** The operation boundary *)

Section boundary.
Context {O : Platform} {B : Backend}.

(** The first [try] of every operation, for a validation that leaves the
    file system as it is: a [FileValidationError] becomes a
    [PDFActionError], any other exception goes through. *)
Lemma try_validation {A} (m : M A) s o :
  m s = (s, o) ->
  try_except m PDFManager.validation_failed s =
  (s, match o with
      | Raise (FileValidationError msg) =>
          Raise (PDFActionError ("Validation failed: " +:+ msg))
      | _ => o
      end).
Proof.
  intros Hm. unfold try_except. rewrite Hm.
  destruct o as [a|e]; [reflexivity|]. destruct e; reflexivity.
Qed.

(** What leaves a [try] whose handler catches every exception and raises
    [PDFActionError] is a [PDFActionError]. *)
Lemma catch_all_raises {A} (m : M A) (h : exn -> M A) s s' e :
  (forall e0 s0, exists msg, h e0 s0 = (s0, Raise (PDFActionError msg))) ->
  try_except m (except_Exception h) s = (s', Raise e) ->
  exists msg, e = PDFActionError msg.
Proof.
  intros Hh. unfold try_except, except_Exception.
  destruct (m s) as [s1 [a|e1]]; [intros [=]|].
  destruct (Hh e1 s1) as [msg ->]. intros [= _ <-]. eauto.
Qed.

Lemma failed_to_raises {A} (m : M A) what s s' e :
  try_except m (PDFManager.failed_to what) s = (s', Raise e) ->
  exists msg, e = PDFActionError msg.
Proof.
  apply catch_all_raises. intros e0 s0. eexists. reflexivity.
Qed.

Lemma merge_pdfs_run paths out s :
  PDFManager.merge_pdfs paths out s =
  match (Validator.validate_paths paths "pdf" s).2 with
  | Raise (FileValidationError msg) =>
      (s, Raise (PDFActionError ("Validation failed: " +:+ msg)))
  | Raise e => (s, Raise e)
  | Return validated_paths =>
      try_except
        (merger <- PDFManager.append_all validated_paths [] ;;
         mkdir_parents (parent (Path out)) ;;
         write_pdf (Path (PStr (str (Path out)))) merger ;;
         PDFManager.merger_close ;;
         ret (Path out))
        (except_Exception (fun e =>
           try_except PDFManager.merger_close (except_Exception (fun _ => ret tt)) ;;
           raise (PDFActionError ("Failed to merge PDFs: " +:+ str_exn e)))) s
  end.
Proof.
  destruct (validate_paths_shape paths "pdf" s) as (o & Hv & _).
  unfold PDFManager.merge_pdfs. unfold bind at 1.
  rewrite (try_validation _ s o Hv), Hv. cbn [snd].
  destruct o as [v|e]; [reflexivity|]. destruct e; reflexivity.
Qed.

Lemma convert_images_to_pdf_run paths out s :
  PDFManager.convert_images_to_pdf paths out s =
  match (Validator.validate_paths paths "image" s).2 with
  | Raise (FileValidationError msg) =>
      (s, Raise (PDFActionError ("Validation failed: " +:+ msg)))
  | Raise e => (s, Raise e)
  | Return [] => (s, Raise (PDFActionError "No valid images provided."))
  | Return validated_paths =>
      try_except
        (images <- PDFManager.open_images validated_paths [] ;;
         match images with
         | [] => raise (IndexError "list index out of range")
         | first_image :: rest_images =>
             mkdir_parents (parent (Path out)) ;;
             Image_save first_image (Path (PStr (str (Path out)))) rest_images ;;
             ret (Path out)
         end)
        (PDFManager.failed_to "Failed to convert images to PDF") s
  end.
Proof.
  destruct (validate_paths_shape paths "image" s) as (o & Hv & _).
  unfold PDFManager.convert_images_to_pdf. unfold bind at 1.
  rewrite (try_validation _ s o Hv), Hv. cbn [snd].
  destruct o as [[|v vs]|e]; try reflexivity. destruct e; reflexivity.
Qed.

Lemma validate_pdf_then_tt x s :
  (Validator.validate_pdf x ;; ret tt) s =
  (s, match (Validator.validate_pdf x s).2 with
      | Return _ => Return tt
      | Raise e => Raise e
      end).
Proof.
  destruct (validate_pdf_raises x s) as (o & Hv & _).
  unfold bind. rewrite Hv. destruct o; reflexivity.
Qed.

Lemma split_pdf_run x out_dir s :
  PDFManager.split_pdf x out_dir s =
  match (Validator.validate_pdf x s).2 with
  | Raise (FileValidationError msg) =>
      (s, Raise (PDFActionError ("Validation failed: " +:+ msg)))
  | Raise e => (s, Raise e)
  | Return _ =>
      (mkdir_parents (Path out_dir) ;;
       try_except
         (pages <- PdfReader_pages (Path x) ;;
          PDFManager.split_loop (Path out_dir) (stem (Path x)) 0 pages [])
         (PDFManager.failed_to "Failed to split PDF")) s
  end.
Proof.
  unfold PDFManager.split_pdf. unfold bind at 1.
  rewrite (try_validation _ s _ (validate_pdf_then_tt x s)).
  destruct ((Validator.validate_pdf x s).2) as [b|e]; [reflexivity|].
  destruct e; reflexivity.
Qed.

Lemma rotate_pdf_run x out rotation s :
  PDFManager.rotate_pdf x out rotation s =
  match (Validator.validate_pdf x s).2 with
  | Raise (FileValidationError msg) =>
      (s, Raise (PDFActionError ("Validation failed: " +:+ msg)))
  | Raise e => (s, Raise e)
  | Return _ =>
      try_except
        (pages <- PdfReader_pages_named x ;;
         writer <- PDFManager.rotate_loop rotation pages [] ;;
         write_pdf (Path out) writer ;;
         ret (Path out))
        (PDFManager.failed_to "Failed to rotate PDF") s
  end.
Proof.
  unfold PDFManager.rotate_pdf. unfold bind at 1.
  rewrite (try_validation _ s _ (validate_pdf_then_tt x s)).
  destruct ((Validator.validate_pdf x s).2) as [b|e]; [reflexivity|].
  destruct e; reflexivity.
Qed.

(** C3. When validation fails, each of the four operations raises
    [PDFActionError] with the message [Validation failed: ] followed by
    the text of the validation error, and leaves the file system as it
    was; no operation ever lets a [FileValidationError] out. *)
Theorem validation_error_never_escapes (s : fs) :
  (forall paths out,
      (forall msg,
         (Validator.validate_paths paths "pdf" s).2
         = Raise (FileValidationError msg) ->
         PDFManager.merge_pdfs paths out s =
         (s, Raise (PDFActionError ("Validation failed: " +:+ msg))))
      /\ forall s' msg,
           PDFManager.merge_pdfs paths out s <> (s', Raise (FileValidationError msg)))
  /\ (forall paths out,
      (forall msg,
         (Validator.validate_paths paths "image" s).2
         = Raise (FileValidationError msg) ->
         PDFManager.convert_images_to_pdf paths out s =
         (s, Raise (PDFActionError ("Validation failed: " +:+ msg))))
      /\ forall s' msg,
           PDFManager.convert_images_to_pdf paths out s
           <> (s', Raise (FileValidationError msg)))
  /\ (forall x out_dir,
      (forall msg,
         (Validator.validate_pdf x s).2 = Raise (FileValidationError msg) ->
         PDFManager.split_pdf x out_dir s =
         (s, Raise (PDFActionError ("Validation failed: " +:+ msg))))
      /\ forall s' msg,
           PDFManager.split_pdf x out_dir s <> (s', Raise (FileValidationError msg)))
  /\ (forall x out rotation,
      (forall msg,
         (Validator.validate_pdf x s).2 = Raise (FileValidationError msg) ->
         PDFManager.rotate_pdf x out rotation s =
         (s, Raise (PDFActionError ("Validation failed: " +:+ msg))))
      /\ forall s' msg,
           PDFManager.rotate_pdf x out rotation s
           <> (s', Raise (FileValidationError msg))).
Proof.
  assert (Hpass : forall (A : Type) e s' msg,
            ((exists m, e = FileValidationError m)
             \/ (exists m, e = OSError EOther m)) ->
            match e with
            | FileValidationError m =>
                (s, Raise (A := A) (PDFActionError ("Validation failed: " +:+ m)))
            | _ => (s, Raise e)
            end <> (s', Raise (FileValidationError msg))).
  { intros A e s' msg [[m ->]|[m ->]]; discriminate. }
  repeat split.
  - intros msg He. rewrite merge_pdfs_run, He. reflexivity.
  - intros s' msg. rewrite merge_pdfs_run.
    destruct (validate_paths_shape paths "pdf" s) as (o & Hv & Ho).
    rewrite Hv. cbn [snd]. destruct o as [vs|e]; [|apply Hpass, Ho; reflexivity].
    intros H. apply catch_all_raises in H; [destruct H as [m [=]]|].
    intros e0 s0. eexists. reflexivity.
  - intros msg He. rewrite convert_images_to_pdf_run, He. reflexivity.
  - intros s' msg. rewrite convert_images_to_pdf_run.
    destruct (validate_paths_shape paths "image" s) as (o & Hv & Ho).
    rewrite Hv. cbn [snd].
    destruct o as [[|v vs]|e]; [discriminate| |apply Hpass, Ho; reflexivity].
    intros H. apply failed_to_raises in H. destruct H as [m [=]].
  - intros msg He. rewrite split_pdf_run, He. reflexivity.
  - intros s' msg. rewrite split_pdf_run.
    destruct (validate_pdf_raises x s) as (o & Hv & Ho).
    rewrite Hv. cbn [snd]. destruct o as [b|e]; [|apply Hpass, Ho; reflexivity].
    unfold bind.
    destruct (mkdir_parents (Path out_dir) s) as [s1 [[]|e1]] eqn:Hmk.
    + intros H. apply failed_to_raises in H. destruct H as [m [=]].
    + apply mkdir_parents_raises in Hmk. destruct Hmk as (kind & m & ->).
      discriminate.
  - intros msg He. rewrite rotate_pdf_run, He. reflexivity.
  - intros s' msg. rewrite rotate_pdf_run.
    destruct (validate_pdf_raises x s) as (o & Hv & Ho).
    rewrite Hv. cbn [snd]. destruct o as [b|e]; [|apply Hpass, Ho; reflexivity].
    intros H. apply failed_to_raises in H. destruct H as [m [=]].
Qed.

End boundary.

(** ** Paths *)

Lemma no_slash_app a b : no_slash (a +:+ b) = no_slash a && no_slash b.
Proof.
  induction a as [|c a IH]; simpl; [reflexivity|].
  rewrite IH, andb_assoc. reflexivity.
Qed.

Lemma split_sep_no_slash s : no_slash s = true -> split_sep s = [s].
Proof.
  induction s as [|c s IH]; simpl; [reflexivity|].
  intros H. apply andb_true_iff in H as [Hc Hs].
  apply negb_true_iff in Hc. rewrite Hc, (IH Hs). reflexivity.
Qed.

Lemma split_sep_pieces s : Forall (fun x => no_slash x = true) (split_sep s).
Proof.
  induction s as [|c s IH]; simpl.
  - constructor; [reflexivity|constructor].
  - destruct (Ascii.eqb c "/") eqn:Hc.
    + constructor; [reflexivity|exact IH].
    + destruct (split_sep s) as [|x xs]; simpl.
      * constructor; [simpl; rewrite Hc; reflexivity|constructor].
      * inversion IH; subst. constructor; [simpl; rewrite Hc; assumption|assumption].
Qed.

Lemma split_sep_app a b :
  no_slash a = true -> split_sep (a +:+ String "/" b) = a :: split_sep b.
Proof.
  induction a as [|c a IH]; simpl; [reflexivity|].
  intros H. apply andb_true_iff in H as [Hc Ha].
  apply negb_true_iff in Hc. rewrite Hc, (IH Ha). reflexivity.
Qed.

Lemma split_sep_join x xs :
  Forall (fun y => no_slash y = true) (x :: xs) ->
  split_sep (join "/" (x :: xs)) = x :: xs.
Proof.
  revert x. induction xs as [|y ys IH]; intros x Hall.
  - simpl. apply split_sep_no_slash. inversion Hall; assumption.
  - inversion Hall as [|? ? Hx Hrest]; subst.
    change (join "/" (x :: y :: ys)) with (x +:+ String "/" (join "/" (y :: ys))).
    rewrite (split_sep_app _ _ Hx), (IH y Hrest). reflexivity.
Qed.

Lemma wf_part_no_slash x : wf_part x = true -> no_slash x = true.
Proof. unfold wf_part. intros H. apply andb_true_iff in H as [_ H]. exact H. Qed.

Lemma wf_part_keeps x : wf_part x = true -> keeps x = true.
Proof. unfold wf_part. intros H. apply andb_true_iff in H as [H _]. exact H. Qed.

Lemma filter_keeps_wf l :
  forallb wf_part l = true -> List.filter keeps l = l.
Proof.
  induction l as [|x l IH]; simpl; [reflexivity|].
  intros H. apply andb_true_iff in H as [Hx Hl].
  rewrite (wf_part_keeps _ Hx), (IH Hl). reflexivity.
Qed.

(** What [Path(s)] builds is well formed. *)
Lemma parse_path_wf s : wf_path (parse_path s) = true.
Proof.
  unfold wf_path, parse_path. simpl. apply andb_true_iff. split.
  - unfold splitroot. destruct s as [|c s]; [reflexivity|].
    destruct (Ascii.eqb c "/"); [|reflexivity].
    destruct (Nat.eqb _ 2); reflexivity.
  - pose proof (split_sep_pieces s) as Hp.
    induction Hp as [|x l Hx _ IH]; simpl; [reflexivity|].
    destruct (keeps x) eqn:Hk; [|exact IH].
    simpl. unfold wf_part. rewrite Hk, Hx. exact IH.
Qed.

Lemma Path_wf x : wf_pathlike x = true -> wf_path (Path x) = true.
Proof. destruct x as [s|p]; simpl; [intros _; apply parse_path_wf|auto]. Qed.

Lemma wf_part_head x :
  wf_part x = true -> exists c x', x = String c x' /\ Ascii.eqb c "/" = false.
Proof.
  unfold wf_part, keeps. destruct x as [|c x']; [discriminate|].
  simpl no_slash. intros H.
  apply andb_true_iff in H as [_ H]. apply andb_true_iff in H as [H _].
  apply negb_true_iff in H. eauto.
Qed.

Lemma join_head x xs :
  wf_part x = true ->
  exists c j, join "/" (x :: xs) = String c j /\ Ascii.eqb c "/" = false.
Proof.
  intros Hx. destruct (wf_part_head _ Hx) as (c & x' & -> & Hc).
  destruct xs as [|y ys]; simpl; eauto.
Qed.

Lemma forallb_wf_no_slash l :
  forallb wf_part l = true -> Forall (fun y => no_slash y = true) l.
Proof.
  induction l as [|x l IH]; simpl; [constructor|].
  intros H. apply andb_true_iff in H as [Hx Hl].
  constructor; [apply wf_part_no_slash; exact Hx|auto].
Qed.

Lemma split_sep_slash s : split_sep (String "/" s) = "" :: split_sep s.
Proof. reflexivity. Qed.

(** [Path(str(p))] is [p]. *)
Lemma parse_path_str p : wf_path p = true -> parse_path (str p) = p.
Proof.
  destruct p as [r ps]. unfold wf_path, wf_root, str. cbn [root parts].
  intros H. apply andb_true_iff in H as [Hr Hps].
  destruct ps as [|x xs].
  - apply orb_true_iff in Hr as [Hr|Hr]; [apply orb_true_iff in Hr as [Hr|Hr]|];
      apply String.eqb_eq in Hr; subst r; reflexivity.
  - pose proof Hps as Hall. cbn [forallb] in Hall.
    apply andb_true_iff in Hall as [Hx _].
    destruct (join_head x xs Hx) as (c & j & Hj & Hc).
    pose proof (split_sep_join x xs (forallb_wf_no_slash _ Hps)) as Hsplit.
    pose proof (filter_keeps_wf _ Hps) as Hfilter.
    unfold parse_path.
    apply orb_true_iff in Hr as [Hr|Hr]; [apply orb_true_iff in Hr as [Hr|Hr]|];
      apply String.eqb_eq in Hr; subst r.
    + change ("" +:+ join "/" (x :: xs)) with (join "/" (x :: xs)).
      rewrite Hsplit, Hfilter. rewrite Hj. simpl. rewrite Hc. reflexivity.
    + change ("/" +:+ join "/" (x :: xs)) with (String "/" (join "/" (x :: xs))).
      f_equal.
      * rewrite Hj. unfold splitroot. simpl. rewrite Hc.
        replace (S (S (String.length j)) - String.length (String c j))
          with 1 by (simpl; lia).
        reflexivity.
      * cbn [parts]. rewrite split_sep_slash, Hsplit. exact Hfilter.
    + change ("//" +:+ join "/" (x :: xs))
        with (String "/" (String "/" (join "/" (x :: xs)))).
      f_equal.
      * rewrite Hj. unfold splitroot. simpl. rewrite Hc.
        replace (S (S (S (String.length j))) - String.length (String c j))
          with 2 by (simpl; lia).
        reflexivity.
      * cbn [parts]. rewrite !split_sep_slash, Hsplit. exact Hfilter.
Qed.

Lemma Path_str_roundtrip x :
  wf_pathlike x = true -> Path (PStr (str (Path x))) = Path x.
Proof. intros H. apply parse_path_str, Path_wf, H. Qed.

(** ** The file system *)

Lemma stat_lookup s p : parts p <> [] -> stat s p = s !! p.
Proof. unfold stat. destruct (parts p); [contradiction|reflexivity]. Qed.

Lemma stat_not_Dir_parts s p : stat s p <> Some Dir -> parts p <> [].
Proof. unfold stat. destruct (parts p); [contradiction|discriminate]. Qed.

Lemma stat_insert_eq s p n : parts p <> [] -> stat (<[p := n]> s) p = Some n.
Proof. intros H. rewrite stat_lookup by exact H. apply lookup_insert_eq. Qed.

Lemma stat_insert_ne s p q n : p <> q -> stat (<[p := n]> s) q = stat s q.
Proof.
  intros H. unfold stat. destruct (parts q); [reflexivity|].
  apply lookup_insert_ne. exact H.
Qed.

Lemma same_dirs_refl s : same_dirs s s.
Proof. intros q. reflexivity. Qed.

Lemma same_dirs_trans s1 s2 s3 :
  same_dirs s1 s2 -> same_dirs s2 s3 -> same_dirs s1 s3.
Proof.
  intros H12 H23 q. split; intros H.
  - apply H12, H23, H.
  - apply H23, H12, H.
Qed.

Lemma stat_lookup_not_Dir s p : stat s p <> Some Dir -> s !! p <> Some Dir.
Proof.
  intros H. rewrite <- stat_lookup; [exact H|].
  eapply stat_not_Dir_parts. exact H.
Qed.

Lemma same_dirs_insert_file s p data re :
  s !! p <> Some Dir -> same_dirs s (<[p := File data re]> s).
Proof.
  intros Hp q. unfold stat. destruct (parts q); [reflexivity|].
  destruct (decide (p = q)) as [<-|Hne].
  - rewrite lookup_insert_eq. split; [discriminate|contradiction].
  - rewrite lookup_insert_ne by exact Hne. reflexivity.
Qed.

Lemma open_wb_same_dirs p s : same_dirs s (open_wb p s).1.
Proof.
  unfold open_wb. destruct (stat s p) as [[|c re]|] eqn:Hst.
  - apply same_dirs_refl.
  - apply same_dirs_insert_file, stat_lookup_not_Dir. rewrite Hst. discriminate.
  - destruct (stat s (parent p)) as [[|c re]|]; try apply same_dirs_refl.
    apply same_dirs_insert_file, stat_lookup_not_Dir. rewrite Hst. discriminate.
Qed.

Lemma write_bytes_same_dirs p data s : same_dirs s (write_bytes p data s).1.
Proof.
  unfold write_bytes. destruct (s !! p) as [[|c re]|] eqn:Hst;
    try apply same_dirs_refl.
  apply same_dirs_insert_file. rewrite Hst. discriminate.
Qed.

(** Opening a file for writing, producing its bytes and writing them: the
    shape of every write of the two libraries. *)
Lemma write_same_dirs (p : path) (o : outcome (list byte)) s :
  same_dirs s ((open_wb p ;; data <- lift o ;; write_bytes p data) s).1.
Proof.
  unfold bind, lift.
  pose proof (open_wb_same_dirs p s) as Hopen.
  destruct (open_wb p s) as [s1 [[]|e]]; [|exact Hopen].
  destruct o as [data|e]; [|exact Hopen].
  pose proof (write_bytes_same_dirs p data s1) as Hwrite.
  destruct (write_bytes p data s1) as [s2 [[]|e]];
    eapply same_dirs_trans; eauto.
Qed.

Lemma write_ok (p : path) (o : outcome (list byte)) data s :
  can_write s p = true -> o = Return data ->
  (open_wb p ;; data <- lift o ;; write_bytes p data) s
  = (written s p data, Return tt).
Proof.
  intros Hcan ->. unfold can_write in Hcan. unfold bind, lift, open_wb, written.
  destruct (stat s p) as [[|c re]|] eqn:Hst; [discriminate| |].
  - assert (Hparts : parts p <> [])
      by (eapply stat_not_Dir_parts; rewrite Hst; discriminate).
    rewrite stat_lookup in Hst by exact Hparts. rewrite Hst.
    unfold write_bytes. rewrite lookup_insert_eq, insert_insert_eq. reflexivity.
  - assert (Hparts : parts p <> [])
      by (eapply stat_not_Dir_parts; rewrite Hst; discriminate).
    rewrite stat_lookup in Hst by exact Hparts. rewrite Hst.
    destruct (stat s (parent p)) as [[|c re]|]; try discriminate.
    unfold write_bytes. rewrite lookup_insert_eq, insert_insert_eq. reflexivity.
Qed.

Lemma stat_written_eq s p data :
  can_write s p = true ->
  exists re, stat (written s p data) p = Some (File data re).
Proof.
  intros Hcan. unfold written. eexists. apply stat_insert_eq.
  unfold can_write in Hcan. apply (stat_not_Dir_parts s).
  destruct (stat s p) as [[|c re]|]; [discriminate Hcan|discriminate..].
Qed.

Lemma stat_written_ne s p q data :
  p <> q -> stat (written s p data) q = stat s q.
Proof. apply stat_insert_ne. Qed.

Lemma written_same_dirs s p data :
  can_write s p = true -> same_dirs s (written s p data).
Proof.
  intros Hcan. apply same_dirs_insert_file, stat_lookup_not_Dir.
  unfold can_write in Hcan.
  destruct (stat s p) as [[|c re]|]; [discriminate Hcan|discriminate..].
Qed.

(** ** mkdir(parents=True, exist_ok=True) *)

Lemma clear_from_head s r rparts :
  clear_from s r rparts = true -> not_a_file s (mkPath r (rev rparts)) = true.
Proof.
  destruct rparts as [|x up]; [intros _; reflexivity|].
  cbn [clear_from]. intros H. apply andb_true_iff in H as [H _]. exact H.
Qed.

Lemma parent_snoc r up x :
  parent (mkPath r (rev (x :: up))) = mkPath r (rev up).
Proof.
  unfold parent. cbn [root parts rev]. rewrite removelast_last. reflexivity.
Qed.

Lemma retry_is_dir_ok {O : Platform} p e s :
  stat s p = Some Dir -> retry_is_dir p e s = (s, Return tt).
Proof. intros H. unfold retry_is_dir, bind. rewrite is_dir_run, H. reflexivity. Qed.

Lemma os_mkdir_absent p s :
  stat s p = None -> stat s (parent p) = Some Dir ->
  os_mkdir p s = (<[p := Dir]> s, Return tt).
Proof. intros Hp Hup. unfold os_mkdir. rewrite Hp, Hup. reflexivity. Qed.

(** With no regular file in the way, [mkdir] succeeds, the directory is
    there afterwards, and the only change is that paths not longer than the
    one asked for, absent before, are directories now. *)
Lemma mkdir_from_ok {O : Platform} r rparts s :
  clear_from s r rparts = true ->
  exists s',
    mkdir_from r rparts s = (s', Return tt)
    /\ stat s' (mkPath r (rev rparts)) = Some Dir
    /\ forall q, stat s' q = stat s q
                 \/ (stat s q = None /\ stat s' q = Some Dir
                     /\ length (parts q) <= length rparts).
Proof.
  revert s. induction rparts as [|x up IH]; intros s Hclear.
  - exists s. simpl. unfold try_except, os_mkdir. cbn [stat parts rev].
    rewrite retry_is_dir_ok by reflexivity. auto.
  - pose proof (clear_from_head _ _ _ Hclear) as Hhead.
    cbn [clear_from] in Hclear. apply andb_true_iff in Hclear as [_ Hup].
    pose proof (clear_from_head _ _ _ Hup) as Huphead.
    set (p := mkPath r (rev (x :: up))) in *.
    assert (Hparts : parts p <> []).
    { unfold p. cbn [parts rev]. intros H. apply app_eq_nil in H as [_ [=]]. }
    assert (Hparent : parent p = mkPath r (rev up)) by apply parent_snoc.
    assert (Hlen : length (parts p) = S (length up)).
    { unfold p. cbn [parts]. rewrite length_rev. reflexivity. }
    change (mkdir_from r (x :: up) s) with
      (try_except (os_mkdir p)
         (fun e =>
            match e with
            | OSError EFileNotFound _ =>
                Some (mkdir_from r up ;; mkdir_exist_ok p)
            | OSError _ _ => Some (retry_is_dir p e)
            | _ => None
            end) s).
    unfold not_a_file in Hhead, Huphead.
    destruct (stat s p) as [[|c re]|] eqn:Hp; [|discriminate|].
    + exists s. unfold try_except, os_mkdir. rewrite Hp.
      rewrite retry_is_dir_ok by exact Hp. auto.
    + destruct (stat s (mkPath r (rev up))) as [[|c re]|] eqn:Hst; [|discriminate|].
      * exists (<[p := Dir]> s). unfold try_except.
        rewrite os_mkdir_absent by (rewrite ?Hparent; assumption).
        split; [reflexivity|]. split; [apply stat_insert_eq; exact Hparts|].
        intros q. destruct (decide (p = q)) as [<-|Hne].
        -- right. rewrite stat_insert_eq by exact Hparts.
           repeat split; [exact Hp|]. rewrite Hlen. simpl. lia.
        -- left. apply stat_insert_ne. exact Hne.
      * destruct (IH s Hup) as (s1 & Hrun & Hdir & Hframe).
        assert (Hp1 : stat s1 p = None).
        { destruct (Hframe p) as [->|(_ & _ & Hle)]; [exact Hp|].
          rewrite Hlen in Hle. lia. }
        exists (<[p := Dir]> s1). unfold try_except, os_mkdir.
        rewrite Hp, Hparent, Hst. unfold bind. rewrite Hrun.
        unfold mkdir_exist_ok, try_except.
        rewrite os_mkdir_absent by (rewrite ?Hparent; assumption).
        split; [reflexivity|]. split; [apply stat_insert_eq; exact Hparts|].
        intros q. destruct (decide (p = q)) as [<-|Hne].
        -- right. rewrite stat_insert_eq by exact Hparts.
           repeat split; [exact Hp|]. rewrite Hlen. simpl. lia.
        -- rewrite stat_insert_ne by exact Hne.
           destruct (Hframe q) as [->|(Hq & Hq1 & Hle)]; [left; reflexivity|].
           right. repeat split; [exact Hq|exact Hq1|]. simpl. lia.
Qed.

Lemma mkdir_parents_ok {O : Platform} p s :
  creatable s p = true ->
  exists s',
    mkdir_parents p s = (s', Return tt)
    /\ stat s' p = Some Dir
    /\ forall q, stat s' q = stat s q
                 \/ (stat s q = None /\ stat s' q = Some Dir
                     /\ length (parts q) <= length (parts p)).
Proof.
  intros Hc. destruct (mkdir_from_ok _ _ _ Hc) as (s' & Hrun & Hdir & Hframe).
  exists s'. rewrite rev_involutive in Hdir. destruct p as [r ps].
  rewrite length_rev in Hframe. auto.
Qed.

Lemma length_parent p :
  parts p <> [] -> length (parts (parent p)) < length (parts p).
Proof.
  intros H. unfold parent. cbn [parts].
  rewrite (app_removelast_last "" H) at 2. rewrite length_app. simpl. lia.
Qed.

(** Creating the directory above [p] makes [p] writable, unless [p] is a
    directory itself. *)
Lemma mkdir_parent_then_write {O : Platform} p s :
  creatable s (parent p) = true -> stat s p <> Some Dir ->
  exists s1,
    mkdir_parents (parent p) s = (s1, Return tt)
    /\ stat s1 (parent p) = Some Dir
    /\ stat s1 p = stat s p
    /\ can_write s1 p = true.
Proof.
  intros Hc Hp.
  destruct (mkdir_parents_ok _ _ Hc) as (s1 & Hrun & Hdir & Hframe).
  assert (Hsame : stat s1 p = stat s p).
  { destruct (Hframe p) as [H|(_ & _ & Hle)]; [exact H|].
    pose proof (length_parent p (stat_not_Dir_parts _ _ Hp)). lia. }
  exists s1. repeat split; try assumption.
  unfold can_write. rewrite Hsame, Hdir.
  destruct (stat s p) as [[|c re]|]; [contradiction|reflexivity..].
Qed.

(** ** Empty input *)

Section empty_input.
Context {O : Platform} {B : Backend}.

Lemma validation_failed_message_differs msg :
  "Validation failed: " +:+ msg <> "No valid images provided.".
Proof. discriminate. Qed.

Lemma failed_to_convert_message_differs msg :
  "Failed to convert images to PDF" +:+ ": " +:+ msg
  <> "No valid images provided.".
Proof. discriminate. Qed.

Lemma failed_to_message {A} (m : M A) what s s' msg :
  try_except m (PDFManager.failed_to what) s = (s', Raise (PDFActionError msg)) ->
  exists e, msg = what +:+ ": " +:+ str_exn e.
Proof.
  unfold try_except, PDFManager.failed_to, except_Exception, raise.
  destruct (m s) as [s1 [a|e1]]; intros [=]; eauto.
Qed.


End empty_input.

Lemma validation_error_never_escapes_witness :
  PDFManager.rotate_pdf (B := Toy.backend)
    (PStr "docs/fake.pdf") (PStr "docs/rotated.pdf") 90 Toy.disk
  = (Toy.disk,
     Raise (PDFActionError
              "Validation failed: Invalid PDF file header: docs/fake.pdf")).
Proof.
  apply (proj1 (proj2 (proj2 (proj2
           (validation_error_never_escapes (B := Toy.backend) Toy.disk)))
           (PStr "docs/fake.pdf") (PStr "docs/rotated.pdf") 90%Z)
           "Invalid PDF file header: docs/fake.pdf").
  reflexivity.
Defined.


(** ** Reading a valid document *)

Section reading.
Context {O : Platform} {B : Backend}.

Lemma validate_pdf_ok x s c :
  stat s (Path x) = Some (File c None) ->
  opens_the_file x = true ->
  take 4 c = [x25; x50; x44; x46] ->
  Validator.validate_pdf x s = (s, Return true).
Proof.
  intros Hst Hopen Hsig.
  rewrite validate_pdf_run, Hst, (read_named_opens x s c None Hst Hopen).
  cbn [snd].
  change [x25; x50; x44; x46] with PDF_SIGNATURE in Hsig.
  change 4 with (length PDF_SIGNATURE) in Hsig.
  apply startswith_take in Hsig. rewrite Hsig. reflexivity.
Qed.

(** What [open(x, 'rb')] reads is the regular file at [Path(x)]. *)
Lemma read_named_returns x s s' d :
  read_named x s = (s', Return d) -> stat s (Path x) = Some (File d None).
Proof.
  assert (Hpath : forall p, read_bytes p s = (s', Return d) ->
                            stat s p = Some (File d None)).
  { intros p. unfold read_bytes.
    destruct (stat s p) as [[|c [msg|]]|]; intros [=]. subst. reflexivity. }
  destruct x as [f|p]; [|apply Hpath]. cbn [Path]. unfold read_named.
  destruct (os_refuses f); [intros [=]|].
  destruct (String.eqb f ""); [intros [=]|].
  destruct (stat s (parse_path f)) as [[|c re]|] eqn:Hst;
    try (intros H; apply Hpath in H; congruence).
  destruct (names_directory f); [intros [=]|].
  intros H. apply Hpath in H. congruence.
Qed.

(** A document that [validate_pdf] accepts opens under the name it was
    given as, and what is read begins with the signature. *)
Lemma validate_pdf_valid x s s' :
  Validator.validate_pdf x s = (s', Return true) ->
  exists c, stat s (Path x) = Some (File c None)
            /\ read_named x s = (s, Return c)
            /\ take 4 c = [x25; x50; x44; x46].
Proof.
  rewrite validate_pdf_run.
  destruct (stat s (Path x)) as [[|c re]|] eqn:Hst; [intros [=]| |].
  - pose proof (read_named_state x s) as Hs.
    destruct (read_named x s) as [s1 [d|e]] eqn:Hread; cbn [fst snd] in *;
      [|intros [=]]. subst s1.
    destruct (startswith d PDF_SIGNATURE) eqn:Hsw; [|intros [=]]. intros _.
    exists d. split; [|split; [reflexivity|]].
    + rewrite <- Hst. eapply read_named_returns. exact Hread.
    + apply (startswith_take d PDF_SIGNATURE). exact Hsw.
  - destruct (os_refuses (str (Path x))); intros [=].
Qed.

Lemma validate_pdf_valid_content x s c re :
  Validator.validate_pdf x s = (s, Return true) ->
  stat s (Path x) = Some (File c re) ->
  re = None /\ read_named x s = (s, Return c).
Proof.
  intros Hvalid Hst.
  destruct (validate_pdf_valid _ _ _ Hvalid) as (d & Hd & Hread & _).
  rewrite Hst in Hd. injection Hd as -> ->. auto.
Qed.

Lemma PdfReader_pages_ok p s c pages :
  stat s p = Some (File c None) -> pdf_read c = Return pages ->
  PdfReader_pages p s = (s, Return pages).
Proof.
  intros Hst Hread. unfold PdfReader_pages, bind, read_bytes, lift.
  rewrite Hst, Hread. reflexivity.
Qed.

Lemma PdfReader_pages_named_ok x s c pages :
  read_named x s = (s, Return c) -> pdf_read c = Return pages ->
  PdfReader_pages_named x s = (s, Return pages).
Proof.
  intros Hopen Hread. unfold PdfReader_pages_named, bind, lift.
  rewrite Hopen, Hread. reflexivity.
Qed.

(** The loop of [rotate_pdf] hands the writer the pages in their order,
    each after [page.rotate(rotation)]. *)
Lemma rotate_loop_ok rotation pages rotated writer s :
  Forall2 (fun p p' => page_rotate p rotation = Return p') pages rotated ->
  PDFManager.rotate_loop rotation pages writer s = (s, Return (writer ++ rotated)).
Proof.
  intros Hall. revert writer.
  induction Hall as [|p p' pages rotated Hp _ IH]; intros writer.
  - simpl. rewrite app_nil_r. reflexivity.
  - simpl. unfold bind at 1. unfold lift. rewrite Hp.
    rewrite IH, <- app_assoc. reflexivity.
Qed.


(** A page the library refuses to rotate stops the loop. *)
Lemma rotate_loop_refused rotation before p after rotated writer s e :
  Forall2 (fun q q' => page_rotate q rotation = Return q') before rotated ->
  page_rotate p rotation = Raise e ->
  PDFManager.rotate_loop rotation (before ++ p :: after) writer s = (s, Raise e).
Proof.
  intros Hall Hp. revert writer.
  induction Hall as [|q q' before rotated Hq _ IH]; intros writer.
  - simpl. unfold bind, lift. rewrite Hp. reflexivity.
  - simpl. unfold bind at 1. unfold lift. rewrite Hq. apply IH.
Qed.

(** When the library refuses the angle on some page, [rotate_pdf] raises
    [PDFActionError] with the text of the refusal and writes nothing. *)
Lemma rotate_pdf_refused (s : fs) (x out : pathlike) (angle : Z)
    (c : list byte) (before after rotated : list page) (p : page) (e : exn) :
  Validator.validate_pdf x s = (s, Return true) ->
  stat s (Path x) = Some (File c None) ->
  pdf_read c = Return (before ++ p :: after) ->
  Forall2 (fun q q' => page_rotate q angle = Return q') before rotated ->
  page_rotate p angle = Raise e ->
  PDFManager.rotate_pdf x out angle s
  = (s, Raise (PDFActionError ("Failed to rotate PDF: " +:+ str_exn e))).
Proof.
  intros Hvalid Hst Hread Hall Hp.
  destruct (validate_pdf_valid_content _ _ _ _ Hvalid Hst) as [_ Hopen].
  rewrite rotate_pdf_run, Hvalid. cbn [snd].
  unfold try_except. unfold bind at 1.
  rewrite (PdfReader_pages_named_ok _ _ _ _ Hopen Hread).
  unfold bind at 1.
  rewrite (rotate_loop_refused _ _ _ _ _ [] s e Hall Hp). reflexivity.
Qed.

End reading.


(** On the backend that checks the angle as PyPDF2 does, the angles that
    [page.rotate] accepts are the multiples of 90. *)
Lemma checked_backend_accepts (angle : Z) (pages : list Z) :
  (angle mod 90 = 0)%Z ->
  Forall2 (fun p p' => page_rotate (Backend := Toy.checked_backend) p angle = Return p')
          pages (map (fun p => (p + angle)%Z) pages).
Proof.
  intros Hmod. induction pages as [|p pages IH]; simpl; constructor.
  - unfold Toy.pypdf2_rotate. rewrite Hmod. reflexivity.
  - exact IH.
Qed.

Lemma checked_backend_refuses (angle : Z) (p : Z) :
  (angle mod 90 <> 0)%Z ->
  page_rotate (Backend := Toy.checked_backend) p angle
  = Raise (LibraryError "Rotation angle must be a multiple of 90").
Proof.
  intros Hmod. simpl. unfold Toy.pypdf2_rotate.
  destruct (Z.eqb_spec (angle mod 90) 0); [contradiction|reflexivity].
Qed.


(** ** File names of the pages *)

Lemma str_length_app a b :
  String.length (a +:+ b) = String.length a + String.length b.
Proof. induction a as [|c a IH]; simpl; [reflexivity|]. rewrite IH. reflexivity. Qed.

Lemma keeps_long x : 2 <= String.length x -> keeps x = true.
Proof.
  destruct x as [|c [|d x]]; simpl; try lia. intros _.
  unfold keeps. simpl. destruct (Ascii.eqb c "."); reflexivity.
Qed.

Lemma no_slash_digits d : no_slash (NilEmpty.string_of_uint d) = true.
Proof. induction d; simpl; auto. Qed.

Lemma no_slash_str_of_nat n : no_slash (str_of_nat n) = true.
Proof.
  unfold str_of_nat, NilZero.string_of_uint.
  destruct (Nat.to_uint n) eqn:Hd; try reflexivity;
    rewrite <- Hd; apply no_slash_digits.
Qed.

Lemma no_slash_str_take i x : no_slash x = true -> no_slash (str_take i x) = true.
Proof.
  revert x. induction i as [|i IH]; intros [|c x]; simpl; try reflexivity.
  intros H. apply andb_true_iff in H as [Hc Hx]. rewrite Hc. simpl. auto.
Qed.

Lemma no_slash_last l :
  forallb wf_part l = true -> no_slash (List.last l "") = true.
Proof.
  induction l as [|x l IH]; [reflexivity|].
  cbn [forallb]. intros H. apply andb_true_iff in H as [Hx Hl].
  destruct l as [|y l]; [apply wf_part_no_slash; exact Hx|].
  change (List.last (x :: y :: l) "") with (List.last (y :: l) "").
  apply IH. exact Hl.
Qed.

Lemma no_slash_stem p : wf_path p = true -> no_slash (stem p) = true.
Proof.
  unfold wf_path. intros H. apply andb_true_iff in H as [_ Hps].
  pose proof (no_slash_last _ Hps) as Hname. fold (name p) in Hname.
  unfold stem. destruct (rfind "." (name p)) as [i|]; [|exact Hname].
  destruct (_ && _); [apply no_slash_str_take|]; exact Hname.
Qed.

Lemma wf_part_page_file_name base n :
  no_slash base = true -> wf_part (page_file_name base n) = true.
Proof.
  intros Hbase. unfold wf_part, page_file_name. apply andb_true_iff. split.
  - apply keeps_long. rewrite !str_length_app. simpl. lia.
  - rewrite !no_slash_app, Hbase, no_slash_str_of_nat. reflexivity.
Qed.

Lemma parse_path_part x : wf_part x = true -> parse_path x = mkPath "" [x].
Proof.
  intros Hx. unfold parse_path.
  rewrite (split_sep_no_slash _ (wf_part_no_slash _ Hx)).
  cbn [List.filter]. rewrite (wf_part_keeps _ Hx).
  destruct (wf_part_head _ Hx) as (c & x' & -> & Hc).
  unfold splitroot. rewrite Hc. reflexivity.
Qed.

(** Joining a directory and a plain file name gives a path in that
    directory with that name. *)
Lemma joinpath_part p x :
  wf_part x = true ->
  joinpath p x = mkPath (root p) (parts p ++ [x])
  /\ name (joinpath p x) = x
  /\ parent (joinpath p x) = p.
Proof.
  intros Hx. unfold joinpath. rewrite (parse_path_part _ Hx). cbn [root parts].
  change (String.eqb "" "") with true. cbv iota.
  repeat split.
  - unfold name. cbn [parts]. apply last_last.
  - unfold parent. cbn [root parts]. rewrite removelast_last.
    destruct p; reflexivity.
Qed.

(** ** split_pdf *)

Section splitting.
Context {O : Platform} {B : Backend}.

(** The loop of [split_pdf], from page number [i + 1] on, in a directory
    that exists and in which none of the files in question is a
    directory. *)
Lemma split_loop_ok out_dir base pages datas i generated s :
  no_slash base = true ->
  Forall2 (fun page data => pdf_write [page] = Return data) pages datas ->
  stat s out_dir = Some Dir ->
  (forall n, i < n <= i + length pages ->
             stat s (joinpath out_dir (page_file_name base n)) <> Some Dir) ->
  exists s',
    PDFManager.split_loop out_dir base i pages generated s
    = (s', Return (generated
                   ++ map (fun n => joinpath out_dir (page_file_name base n))
                          (seq (S i) (length pages))))
    /\ same_dirs s s'.
Proof.
  intros Hbase Hall. revert i generated s.
  induction Hall as [|page data pages datas Hpage _ IH];
    intros i generated s Hdir Hfree.
  - exists s. simpl. rewrite app_nil_r. split; [reflexivity|apply same_dirs_refl].
  - set (out := joinpath out_dir (page_file_name base (i + 1))).
    assert (Hparent : parent out = out_dir)
      by (apply joinpath_part, wf_part_page_file_name, Hbase).
    assert (Hout : stat s out <> Some Dir)
      by (apply Hfree; cbn [length]; lia).
    assert (Hcan : can_write s out = true).
    { unfold can_write. rewrite Hparent, Hdir.
      destruct (stat s out) as [[|c re]|]; [contradiction|reflexivity..]. }
    pose proof (written_same_dirs s out data Hcan) as Hsame.
    destruct (IH (S i) (generated ++ [out]) (written s out data)) as (s' & Hrun & Hsame').
    { apply Hsame. exact Hdir. }
    { intros n Hn Hst. apply Hsame in Hst. revert Hst. apply Hfree.
      cbn [length]. lia. }
    exists s'. split; [|eapply same_dirs_trans; eassumption].
    cbn [PDFManager.split_loop].
    change (base +:+ "_page_" +:+ str_of_nat (i + 1) +:+ ".pdf")
      with (page_file_name base (i + 1)).
    fold out. unfold bind at 1. unfold write_pdf.
    rewrite (write_ok _ _ data _ Hcan Hpage). rewrite Hrun.
    rewrite <- app_assoc. cbn [length seq map app].
    unfold out. rewrite Nat.add_1_r. reflexivity.
Qed.


End splitting.


(** ** Which operations create the directory of their output *)

Section output_directory.
Context {O : Platform} {B : Backend}.

(** A handler that only raises leaves the file system as the body left
    it. *)
Lemma try_except_state {A} (m : M A) (handler : exn -> option (M A)) s :
  (forall e h s0, handler e = Some h -> (h s0).1 = s0) ->
  (try_except m handler s).1 = (m s).1.
Proof.
  intros Hh. unfold try_except. destruct (m s) as [s1 [a|e]]; [reflexivity|].
  destruct (handler e) as [h|] eqn:He; [|reflexivity].
  apply (Hh e h s1 He).
Qed.

Lemma failed_to_state {A} (m : M A) what s :
  (try_except m (PDFManager.failed_to what) s).1 = (m s).1.
Proof.
  apply try_except_state. intros e h s0 [= <-]. reflexivity.
Qed.

Lemma rotate_loop_state rotation pages writer s :
  (PDFManager.rotate_loop rotation pages writer s).1 = s.
Proof.
  revert writer. induction pages as [|p pages IH]; intros writer; simpl.
  - reflexivity.
  - unfold bind, lift. destruct (page_rotate p rotation); [apply IH|reflexivity].
Qed.

Lemma PdfReader_pages_state p s : (PdfReader_pages p s).1 = s.
Proof.
  unfold PdfReader_pages, bind, lift.
  pose proof (read_bytes_state p s) as Hs.
  destruct (read_bytes p s) as [s1 [c|e]]; simpl in *; subst s1;
    [destruct (pdf_read c)|]; reflexivity.
Qed.

Lemma PdfReader_pages_named_state x s : (PdfReader_pages_named x s).1 = s.
Proof.
  unfold PdfReader_pages_named, bind, lift.
  pose proof (read_named_state x s) as Hs.
  destruct (read_named x s) as [s1 [c|e]]; simpl in *; subst s1;
    [destruct (pdf_read c)|]; reflexivity.
Qed.

Lemma write_pdf_same_dirs p pages s : same_dirs s (write_pdf p pages s).1.
Proof. apply write_same_dirs. Qed.

Lemma Image_save_same_dirs first p rest s :
  same_dirs s (Image_save first p rest s).1.
Proof. apply write_same_dirs. Qed.

Lemma split_loop_same_dirs out_dir base i pages generated s :
  same_dirs s (PDFManager.split_loop out_dir base i pages generated s).1.
Proof.
  revert i generated s.
  induction pages as [|page pages IH]; intros i generated s;
    cbn [PDFManager.split_loop].
  - apply same_dirs_refl.
  - unfold bind at 1.
    pose proof (write_pdf_same_dirs
                  (joinpath out_dir
                     (base +:+ "_page_" +:+ str_of_nat (i + 1) +:+ ".pdf"))
                  [page] s) as Hw.
    destruct (write_pdf _ [page] s) as [s1 [[]|e]]; [|exact Hw].
    eapply same_dirs_trans; [exact Hw|apply IH].
Qed.

(** The second [try] of [rotate_pdf] creates no directory. *)
Lemma rotate_body_same_dirs x out rotation s :
  same_dirs s
    ((pages <- PdfReader_pages_named x ;;
      writer <- PDFManager.rotate_loop rotation pages [] ;;
      write_pdf (Path out) writer ;;
      ret (Path out)) s).1.
Proof.
  unfold bind at 1.
  pose proof (PdfReader_pages_named_state x s) as Hr.
  destruct (PdfReader_pages_named x s) as [s1 [pages|e]]; simpl in Hr; subst s1;
    [|apply same_dirs_refl].
  unfold bind at 1.
  pose proof (rotate_loop_state rotation pages [] s) as Hl.
  destruct (PDFManager.rotate_loop rotation pages [] s) as [s1 [writer|e]];
    simpl in Hl; subst s1; [|apply same_dirs_refl].
  unfold bind at 1.
  pose proof (write_pdf_same_dirs (Path out) writer s) as Hw.
  destruct (write_pdf (Path out) writer s) as [s1 [[]|e]]; exact Hw.
Qed.


End output_directory.


(** * Further properties of the code *)

(** ** validate_file and the file system *)

(** X1. [validate_file] returns [True] exactly for a path at which a
    regular file exists; a directory raises [Path is not a file]; a path
    at which nothing is found raises [File not found], unless the system
    refuses to look the name up (a name that is too long, a directory
    that may not be searched): then [Path.exists] raises the [OSError]
    again and it leaves [validate_file] as it is. *)
Theorem validate_file_regular_file {O : Platform} (s : fs) (x : pathlike) :
  (Validator.validate_file x s = (s, Return true)
   <-> exists c re, stat s (Path x) = Some (File c re))
  /\ (stat s (Path x) = Some Dir ->
      Validator.validate_file x s
      = (s, Raise (FileValidationError ("Path is not a file: " +:+ fmt x))))
  /\ (stat s (Path x) = None -> os_refuses (str (Path x)) = None ->
      Validator.validate_file x s
      = (s, Raise (FileValidationError ("File not found: " +:+ fmt x))))
  /\ (forall msg,
        stat s (Path x) = None -> os_refuses (str (Path x)) = Some msg ->
        Validator.validate_file x s = (s, Raise (OSError EOther msg))).
Proof.
  rewrite validate_file_run.
  destruct (stat s (Path x)) as [[|c re]|].
  - split; [split; [discriminate|intros (c & re & [=])]|].
    split; [reflexivity|]. split; [discriminate|]. intros msg [=].
  - split; [split; [eauto|reflexivity]|].
    split; [discriminate|]. split; [discriminate|]. intros msg [=].
  - split; [split; [|intros (c & re & [=])]|].
    { destruct (os_refuses (str (Path x))); discriminate. }
    split; [discriminate|].
    split; [intros _ ->; reflexivity|intros msg _ ->; reflexivity].
Qed.

(** X2. Validation only reads: none of the validators changes the file
    system, whatever the outcome and whatever the [file_type]. *)
Theorem validation_reads_only {O : Platform} (s : fs) (x : pathlike)
    (paths : list pathlike) (file_type : string) :
  (Validator.validate_file x s).1 = s
  /\ (Validator.validate_pdf x s).1 = s
  /\ (Validator.validate_image x s).1 = s
  /\ (Validator.validate_paths paths file_type s).1 = s.
Proof.
  rewrite validate_file_run, validate_pdf_run, validate_image_run.
  destruct (validate_paths_shape paths file_type s) as (o & -> & _).
  repeat split.
Qed.

(** ** Which exceptions leave the operations *)

Section raised.
Context {O : Platform} {B : Backend}.

Lemma failed_to_prefix {A} (m : M A) what s s' e :
  try_except m (PDFManager.failed_to what) s = (s', Raise e) ->
  exists rest, e = PDFActionError (what +:+ ": " +:+ rest).
Proof.
  unfold try_except, PDFManager.failed_to, except_Exception, raise.
  destruct (m s) as [s1 [a|e1]]; intros [= _ <-]. eauto.
Qed.

Lemma catch_all_prefix {A} (m : M A) (h : exn -> M A) pre s s' e :
  (forall e0 s0, h e0 s0 = (s0, Raise (PDFActionError (pre +:+ str_exn e0)))) ->
  try_except m (except_Exception h) s = (s', Raise e) ->
  exists rest, e = PDFActionError (pre +:+ rest).
Proof.
  intros Hh. unfold try_except, except_Exception.
  destruct (m s) as [s1 [a|e1]]; [discriminate|].
  rewrite Hh. intros [= _ <-]. eauto.
Qed.

(** The [OSError] that leaves [validate_paths] is the one of a lookup
    that the system refuses, for one of the paths. *)
Lemma validate_paths_loop_OSError paths file_type acc s s' kind msg :
  Validator.validate_paths_loop paths file_type acc s = (s', Raise (OSError kind msg)) ->
  kind = EOther
  /\ exists p, p ∈ paths /\ stat s (Path p) = None
               /\ os_refuses (str (Path p)) = Some msg.
Proof.
  revert acc. induction paths as [|p rest IH]; intros acc; [intros [=]|].
  cbn [Validator.validate_paths_loop]. unfold bind at 1.
  assert (Hstep : exists o,
    (if String.eqb file_type "pdf"
     then Validator.validate_pdf (PPath (Path p)) ;; ret tt
     else if String.eqb file_type "image"
          then Validator.validate_image (PPath (Path p)) ;; ret tt
          else ret tt) s = (s, o)
    /\ (o = Return tt
        \/ (exists m, o = Raise (FileValidationError m))
        \/ (exists m, o = Raise (OSError EOther m)
                      /\ stat s (Path p) = None
                      /\ os_refuses (str (Path p)) = Some m))).
  { destruct (String.eqb file_type "pdf");
      [|destruct (String.eqb file_type "image")].
    - destruct (validate_pdf_shape (PPath (Path p)) s) as (o & Hv & Ho).
      unfold bind. rewrite Hv.
      destruct Ho as [->|[[m ->]|(m & -> & H)]]; eauto 8.
    - destruct (validate_image_shape (PPath (Path p)) s) as (o & Hv & Ho).
      unfold bind. rewrite Hv.
      destruct Ho as [->|[[m ->]|(m & -> & H)]]; eauto 8.
    - eauto. }
  destruct Hstep as (o & -> & [->|[[m ->]|(m & -> & Hst & Hos)]]).
  - intros H. apply IH in H as (-> & q & Hq & H). split; [reflexivity|].
    exists q. split; [right; exact Hq|exact H].
  - intros [=].
  - intros [= _ <- <-]. split; [reflexivity|].
    exists p. split; [left|]; auto.
Qed.

(** X3. What leaves [merge_pdfs], [convert_images_to_pdf] and
    [rotate_pdf] is a [PDFActionError] whose message starts with
    [Validation failed: ] or names the operation (or is [No valid images
    provided.]): no exception of the libraries, of a read or of a write
    gets out of them. The one other exception is the [OSError] of a
    [Path.exists] of the validation, for an input name that the system
    refuses to look up: it is no [FileValidationError], so that the first
    [try] lets it through. [split_pdf] lets out, besides these, the
    [OSError] of creating the output directory, which happens outside its
    [try]. *)
Theorem operations_raise_PDFActionError (s : fs) :
  (forall paths out s' e,
      PDFManager.merge_pdfs paths out s = (s', Raise e) ->
      (exists rest, e = PDFActionError ("Validation failed: " +:+ rest)
                    \/ e = PDFActionError ("Failed to merge PDFs: " +:+ rest))
      \/ (exists msg p, e = OSError EOther msg /\ s' = s /\ p ∈ paths
                        /\ stat s (Path p) = None
                        /\ os_refuses (str (Path p)) = Some msg))
  /\ (forall paths out s' e,
      PDFManager.convert_images_to_pdf paths out s = (s', Raise e) ->
      (exists rest, e = PDFActionError ("Validation failed: " +:+ rest)
                    \/ e = PDFActionError "No valid images provided."
                    \/ e = PDFActionError ("Failed to convert images to PDF: " +:+ rest))
      \/ (exists msg p, e = OSError EOther msg /\ s' = s /\ p ∈ paths
                        /\ stat s (Path p) = None
                        /\ os_refuses (str (Path p)) = Some msg))
  /\ (forall x out rotation s' e,
      PDFManager.rotate_pdf x out rotation s = (s', Raise e) ->
      (exists rest, e = PDFActionError ("Validation failed: " +:+ rest)
                    \/ e = PDFActionError ("Failed to rotate PDF: " +:+ rest))
      \/ (exists msg, e = OSError EOther msg /\ s' = s
                      /\ stat s (Path x) = None
                      /\ os_refuses (str (Path x)) = Some msg))
  /\ (forall x out_dir s' e,
      PDFManager.split_pdf x out_dir s = (s', Raise e) ->
      (exists rest, e = PDFActionError ("Validation failed: " +:+ rest)
                    \/ e = PDFActionError ("Failed to split PDF: " +:+ rest))
      \/ (exists msg, e = OSError EOther msg /\ s' = s
                      /\ stat s (Path x) = None
                      /\ os_refuses (str (Path x)) = Some msg)
      \/ (exists kind msg, e = OSError kind msg
                           /\ Validator.validate_pdf x s = (s, Return true)
                           /\ mkdir_parents (Path out_dir) s = (s', Raise e))).
Proof.
  split; [|split; [|split]].
  - intros paths out s' e. rewrite merge_pdfs_run.
    destruct (validate_paths_shape paths "pdf" s) as (o & Hv & Ho).
    rewrite Hv. cbn [snd]. destruct o as [vs|e0].
    + intros H.
      apply (catch_all_prefix _ _ "Failed to merge PDFs: ") in H as [rest ->];
        [|intros e0 s0; reflexivity].
      left. exists rest. right. reflexivity.
    + destruct (Ho e0 eq_refl) as [[m ->]|[m ->]].
      * intros [= _ <-]. left. eexists. left. reflexivity.
      * intros [= <- <-]. right.
        apply validate_paths_loop_OSError in Hv as (_ & p & Hp & Hst & Hos).
        exists m, p. auto.
  - intros paths out s' e. rewrite convert_images_to_pdf_run.
    destruct (validate_paths_shape paths "image" s) as (o & Hv & Ho).
    rewrite Hv. cbn [snd]. destruct o as [[|v vs]|e0].
    + intros [= _ <-]. left. exists "". right. left. reflexivity.
    + intros H. apply failed_to_prefix in H as [rest ->].
      left. exists rest. right. right. reflexivity.
    + destruct (Ho e0 eq_refl) as [[m ->]|[m ->]].
      * intros [= _ <-]. left. eexists. left. reflexivity.
      * intros [= <- <-]. right.
        apply validate_paths_loop_OSError in Hv as (_ & p & Hp & Hst & Hos).
        exists m, p. auto.
  - intros x out rotation s' e. rewrite rotate_pdf_run.
    destruct (validate_pdf_shape x s) as (o & Hv & Ho).
    rewrite Hv. cbn [snd].
    destruct Ho as [->|[[m ->]|(m & -> & Hst & Hos)]].
    + intros H. apply failed_to_prefix in H as [rest ->].
      left. exists rest. right. reflexivity.
    + intros [= _ <-]. left. eexists. left. reflexivity.
    + intros [= <- <-]. right. exists m. auto.
  - intros x out_dir s' e. rewrite split_pdf_run.
    destruct (validate_pdf_shape x s) as (o & Hv & Ho).
    rewrite Hv. cbn [snd].
    destruct Ho as [->|[[m ->]|(m & -> & Hst & Hos)]].
    + unfold bind.
      destruct (mkdir_parents (Path out_dir) s) as [s1 [[]|e1]] eqn:Hmk.
      * intros H. apply failed_to_prefix in H as [rest ->].
        left. exists rest. right. reflexivity.
      * intros [= <- <-]. right. right.
        destruct (mkdir_parents_raises _ _ _ _ Hmk) as (kind & msg & ->).
        exists kind, msg. auto.
    + intros [= _ <-]. left. eexists. left. reflexivity.
    + intros [= <- <-]. right. left. exists m. auto.
Qed.

Lemma mkdir_from_on_file r rparts s c re :
  stat s (mkPath r (rev rparts)) = Some (File c re) ->
  mkdir_from r rparts s
  = (s, Raise (OSError EFileExists
                 ("File exists: " +:+ str (mkPath r (rev rparts))))).
Proof.
  intros Hst. destruct rparts as [|x up]; [discriminate Hst|].
  cbn [mkdir_from]. unfold try_except, os_mkdir. rewrite Hst.
  unfold retry_is_dir, bind. rewrite is_dir_run, Hst. reflexivity.
Qed.

Lemma mkdir_parents_on_file p s c re :
  stat s p = Some (File c re) ->
  mkdir_parents p s = (s, Raise (OSError EFileExists ("File exists: " +:+ str p))).
Proof.
  intros Hst. unfold mkdir_parents.
  pose proof (mkdir_from_on_file (root p) (rev (parts p)) s c re) as H.
  rewrite rev_involutive in H. destruct p as [r ps]. apply H. exact Hst.
Qed.

(** X4. When the input is a valid PDF, one that [validate_pdf] accepts,
    and the output directory given to [split_pdf] is an existing regular
    file, the [FileExistsError] of [mkdir] reaches the caller as it is,
    not wrapped in [PDFActionError], and nothing is changed. *)
Theorem split_pdf_output_dir_is_a_file (s : fs) (x out_dir : pathlike)
    (d : list byte) (re : option string) :
  Validator.validate_pdf x s = (s, Return true) ->
  stat s (Path out_dir) = Some (File d re) ->
  PDFManager.split_pdf x out_dir s
  = (s, Raise (OSError EFileExists ("File exists: " +:+ str (Path out_dir)))).
Proof.
  intros Hvalid Hout.
  rewrite split_pdf_run, Hvalid. cbn [snd].
  unfold bind. rewrite (mkdir_parents_on_file _ _ _ _ Hout). reflexivity.
Qed.

End raised.

Lemma split_pdf_output_dir_is_a_file_witness :
  PDFManager.split_pdf (B := Toy.backend)
    (PStr "docs/a.pdf") (PStr "docs/fake.pdf") Toy.disk
  = (Toy.disk, Raise (OSError EFileExists "File exists: docs/fake.pdf")).
Proof.
  apply (split_pdf_output_dir_is_a_file (B := Toy.backend) Toy.disk
           (PStr "docs/a.pdf") (PStr "docs/fake.pdf")
           [x4e; x4f; x54; x5f; x41] None);
    reflexivity.
Defined.

(** ** merge_pdfs on valid inputs *)

Section merging.
Context {O : Platform} {B : Backend}.

Lemma validate_paths_pdf_ok paths s :
  Forall (fun x => exists c, stat s (Path x) = Some (File c None)
                             /\ take 4 c = [x25; x50; x44; x46]) paths ->
  Validator.validate_paths paths "pdf" s = (s, Return (map Path paths)).
Proof.
  intros Hall. unfold Validator.validate_paths.
  apply (validate_paths_loop_pass
           (fun p => Validator.validate_pdf (PPath (Path p)) ;; ret tt)).
  - intros p. reflexivity.
  - eapply Forall_impl; [exact Hall|]. intros x (c & Hst & Hsig). cbv beta.
    eapply then_tt_Return.
    apply (validate_pdf_ok (PPath (Path x)) s c); [assumption|reflexivity|assumption].
Qed.

(** The appends of [merge_pdfs]: the merger holds the pages of the files
    in the order of the files. *)
Lemma append_all_ok validated pagess merger s :
  Forall2 (fun p pages => wf_path p = true
                          /\ exists c, stat s p = Some (File c None)
                                       /\ pdf_read c = Return pages)
          validated pagess ->
  PDFManager.append_all validated merger s = (s, Return (merger ++ concat pagess)).
Proof.
  intros Hall. revert merger.
  induction Hall as [|p pages validated pagess (Hwf & c & Hst & Hread) _ IH];
    intros merger.
  - simpl. rewrite app_nil_r. reflexivity.
  - cbn [PDFManager.append_all]. unfold bind at 1.
    change (Path (PStr (str p))) with (parse_path (str p)).
    rewrite (parse_path_str _ Hwf), (PdfReader_pages_ok _ _ _ _ Hst Hread).
    rewrite IH. cbn [concat]. rewrite app_assoc. reflexivity.
Qed.

(** The first file the library cannot read stops the appends. *)
Lemma append_all_stop before p after pagess merger s c e :
  Forall2 (fun q pages => wf_path q = true
                          /\ exists d, stat s q = Some (File d None)
                                       /\ pdf_read d = Return pages)
          before pagess ->
  wf_path p = true ->
  stat s p = Some (File c None) ->
  pdf_read c = Raise e ->
  PDFManager.append_all (before ++ p :: after) merger s = (s, Raise e).
Proof.
  intros Hall Hwf Hst Hread. revert merger.
  induction Hall as [|q pages before pagess (Hwfq & d & Hstq & Hreadq) _ IH];
    intros merger.
  - cbn [app PDFManager.append_all]. unfold bind at 1.
    change (Path (PStr (str p))) with (parse_path (str p)).
    rewrite (parse_path_str _ Hwf).
    unfold PdfReader_pages, bind, read_bytes, lift. rewrite Hst, Hread.
    reflexivity.
  - rewrite <- app_comm_cons. cbn [PDFManager.append_all]. unfold bind at 1.
    change (Path (PStr (str q))) with (parse_path (str q)).
    rewrite (parse_path_str _ Hwfq), (PdfReader_pages_ok _ _ _ _ Hstq Hreadq).
    apply IH.
Qed.


(** X6. When the library cannot read one of the validated inputs,
    [merge_pdfs] raises [PDFActionError] with [Failed to merge PDFs: ] and
    the text of the library's error, and the file system is as before:
    the inputs are read before the output directory is created, so
    nothing has been created or written. *)
Theorem merge_pdfs_unreadable_input (s : fs) (before after : list pathlike)
    (x out : pathlike) (pagess : list (list page)) (c : list byte) (e : exn) :
  Forall (fun y => wf_pathlike y = true) (before ++ [x]) ->
  Forall (fun y => exists d, stat s (Path y) = Some (File d None)
                             /\ take 4 d = [x25; x50; x44; x46])
         (before ++ x :: after) ->
  Forall2 (fun y pages => exists d, stat s (Path y) = Some (File d None)
                                    /\ pdf_read d = Return pages)
          before pagess ->
  stat s (Path x) = Some (File c None) ->
  pdf_read c = Raise e ->
  PDFManager.merge_pdfs (before ++ x :: after) out s
  = (s, Raise (PDFActionError ("Failed to merge PDFs: " +:+ str_exn e))).
Proof.
  intros Hwfs Hvalid Hall Hst Hread.
  rewrite merge_pdfs_run, (validate_paths_pdf_ok _ _ Hvalid). cbn [snd].
  unfold try_except. unfold bind at 1.
  rewrite map_app. cbn [map].
  apply Forall_app in Hwfs as [Hwfb Hwfx]. inversion Hwfx; subst.
  rewrite (append_all_stop (map Path before) (Path x) (map Path after)
             pagess [] s c e).
  - reflexivity.
  - clear - Hall Hwfb.
    induction Hall as [|y pages before pagess (d & ? & ?) _ IH]; [constructor|].
    inversion Hwfb; subst. cbn [map]. constructor; [|auto].
    split; [apply Path_wf; assumption|eauto].
  - apply Path_wf. assumption.
  - exact Hst.
  - exact Hread.
Qed.

End merging.


Lemma merge_pdfs_unreadable_input_witness :
  PDFManager.merge_pdfs (B := Fragile.backend)
    [PStr "docs/a.pdf"; PStr "docs/cut.pdf"; PStr "docs/a.pdf"]
    (PStr "new/merged.pdf") Fragile.disk
  = (Fragile.disk,
     Raise (PDFActionError "Failed to merge PDFs: EOF marker not found")).
Proof.
  apply (merge_pdfs_unreadable_input (B := Fragile.backend) Fragile.disk
           [PStr "docs/a.pdf"] [PStr "docs/a.pdf"] (PStr "docs/cut.pdf")
           (PStr "new/merged.pdf") [[0%Z; 0%Z]] [x25; x50; x44; x46]
           (LibraryError "EOF marker not found")).
  - repeat constructor.
  - repeat constructor; eexists; split; reflexivity.
  - repeat constructor. exists Toy.two_pages. split; reflexivity.
  - reflexivity.
  - reflexivity.
Defined.

(** ** convert_images_to_pdf on valid inputs *)

Section converting.
Context {O : Platform} {B : Backend}.

Lemma validate_image_ok x s c magic :
  stat s (Path x) = Some (File c None) ->
  opens_the_file x = true ->
  image_signature (image_ext (Path x)) = Some magic ->
  take (length magic) c = magic ->
  Validator.validate_image x s = (s, Return true).
Proof.
  intros Hst Hopen Hsig Htake.
  rewrite validate_image_run, Hst, Hsig, (read_named_opens x s c None Hst Hopen).
  cbn [snd]. apply startswith_take in Htake. rewrite Htake. reflexivity.
Qed.

Lemma validate_paths_image_ok paths s :
  Forall (fun x => exists c magic,
            stat s (Path x) = Some (File c None)
            /\ image_signature (image_ext (Path x)) = Some magic
            /\ take (length magic) c = magic) paths ->
  Validator.validate_paths paths "image" s = (s, Return (map Path paths)).
Proof.
  intros Hall. unfold Validator.validate_paths.
  apply (validate_paths_loop_pass
           (fun p => Validator.validate_image (PPath (Path p)) ;; ret tt)).
  - intros p. reflexivity.
  - eapply Forall_impl; [exact Hall|].
    intros x (c & magic & Hst & Hsig & Htake). cbv beta.
    eapply then_tt_Return.
    apply (validate_image_ok (PPath (Path x)) s c magic);
      [assumption|reflexivity|assumption..].
Qed.

(** One image of the loop: opened, and converted unless its mode is
    [RGB]. *)
Lemma open_one_image p s c raw img :
  stat s p = Some (File c None) -> image_open c = Return raw -> as_rgb raw img ->
  (img0 <- Image_open p ;;
   if negb (String.eqb (image_mode img0) "RGB")
   then lift (image_convert img0 "RGB") else ret img0) s = (s, Return img).
Proof.
  intros Hst Hopen Hrgb. unfold bind, Image_open, bind, read_bytes, lift.
  rewrite Hst, Hopen. destruct Hrgb as [[Hmode ->]|[Hmode Hconv]].
  - rewrite Hmode. reflexivity.
  - destruct (String.eqb_spec (image_mode raw) "RGB"); [contradiction|].
    cbn [negb]. rewrite Hconv. reflexivity.
Qed.

Lemma open_images_ok validated imgs images s :
  Forall2 (fun p img => exists c raw, stat s p = Some (File c None)
                                      /\ image_open c = Return raw
                                      /\ as_rgb raw img)
          validated imgs ->
  PDFManager.open_images validated images s = (s, Return (images ++ imgs)).
Proof.
  intros Hall. revert images.
  induction Hall as [|p img validated imgs (c & raw & Hst & Hopen & Hrgb) _ IH];
    intros images.
  - simpl. rewrite app_nil_r. reflexivity.
  - cbn [PDFManager.open_images].
    pose proof (open_one_image p s c raw img Hst Hopen Hrgb) as Hone.
    unfold bind in Hone |- *. unfold bind.
    destruct (Image_open p s) as [s1 [img0|e0]]; [|discriminate Hone].
    rewrite Hone. rewrite IH, <- app_assoc. reflexivity.
Qed.


End converting.


Section converting_fails.
Context {O : Platform} {B : Backend}.

Lemma open_images_stop before p after imgs images s c e :
  Forall2 (fun q img => exists d raw, stat s q = Some (File d None)
                                      /\ image_open d = Return raw
                                      /\ as_rgb raw img)
          before imgs ->
  stat s p = Some (File c None) ->
  (image_open c = Raise e
   \/ exists raw, image_open c = Return raw /\ image_mode raw <> "RGB"
                  /\ image_convert raw "RGB" = Raise e) ->
  PDFManager.open_images (before ++ p :: after) images s = (s, Raise e).
Proof.
  intros Hall Hst Hfail. revert images.
  induction Hall as [|q img before imgs (d & raw & Hstq & Hopen & Hrgb) _ IH];
    intros images.
  - cbn [app PDFManager.open_images].
    unfold bind, Image_open, bind, read_bytes, lift. rewrite Hst.
    destruct Hfail as [->|(raw & -> & Hmode & Hconv)]; [reflexivity|].
    destruct (String.eqb_spec (image_mode raw) "RGB"); [contradiction|].
    cbn [negb]. rewrite Hconv. reflexivity.
  - rewrite <- app_comm_cons. cbn [PDFManager.open_images].
    pose proof (open_one_image q s d raw img Hstq Hopen Hrgb) as Hone.
    unfold bind in Hone |- *. unfold bind.
    destruct (Image_open q s) as [s1 [img0|e0]]; [|discriminate Hone].
    rewrite Hone. apply IH.
Qed.

(** X8. When the library cannot open, or cannot convert to [RGB], one of
    the validated images, [convert_images_to_pdf] raises [PDFActionError]
    with [Failed to convert images to PDF: ] and the text of the library's
    error, and the file system is as before: all images are opened before
    the output directory is created. *)
Theorem convert_images_to_pdf_unreadable_input (s : fs)
    (before after : list pathlike) (x out : pathlike)
    (imgs : list image) (c : list byte) (e : exn) :
  Forall (fun y => exists d magic,
            stat s (Path y) = Some (File d None)
            /\ image_signature (image_ext (Path y)) = Some magic
            /\ take (length magic) d = magic)
         (before ++ x :: after) ->
  Forall2 (fun y img => exists d raw, stat s (Path y) = Some (File d None)
                                      /\ image_open d = Return raw
                                      /\ as_rgb raw img)
          before imgs ->
  stat s (Path x) = Some (File c None) ->
  (image_open c = Raise e
   \/ exists raw, image_open c = Return raw /\ image_mode raw <> "RGB"
                  /\ image_convert raw "RGB" = Raise e) ->
  PDFManager.convert_images_to_pdf (before ++ x :: after) out s
  = (s, Raise (PDFActionError
                 ("Failed to convert images to PDF: " +:+ str_exn e))).
Proof.
  intros Hvalid Hall Hst Hfail.
  rewrite convert_images_to_pdf_run, (validate_paths_image_ok _ _ Hvalid).
  cbn [snd].
  assert (Hopen : PDFManager.open_images (map Path (before ++ x :: after)) [] s
                  = (s, Raise e)).
  { rewrite map_app. cbn [map].
    apply (open_images_stop (map Path before) (Path x) (map Path after)
             imgs [] s c e); [|exact Hst|exact Hfail].
    clear - Hall.
    induction Hall as [|y img before imgs (d & raw & ? & ? & ?) _ IH];
      cbn [map]; constructor; eauto. }
  destruct (map Path (before ++ x :: after)) as [|v vs] eqn:Hmap.
  { destruct before; discriminate Hmap. }
  unfold try_except, PDFManager.failed_to, except_Exception, raise.
  unfold bind at 1. rewrite Hopen. reflexivity.
Qed.

End converting_fails.

Lemma convert_images_to_pdf_unreadable_input_witness :
  PDFManager.convert_images_to_pdf (B := Fragile.backend)
    [PStr "docs/photo.jpeg"; PStr "docs/cut.jpg"] (PStr "new/album.pdf")
    Fragile.disk
  = (Fragile.disk,
     Raise (PDFActionError
              "Failed to convert images to PDF: cannot identify image file")).
Proof.
  apply (convert_images_to_pdf_unreadable_input (B := Fragile.backend)
           Fragile.disk [PStr "docs/photo.jpeg"] [] (PStr "docs/cut.jpg")
           (PStr "new/album.pdf") [("RGB", [xff; xd8; xff; xe0])]
           [xff; xd8; xff] (LibraryError "cannot identify image file")).
  - constructor; [|constructor; [|constructor]].
    + exists [xff; xd8; xff; xe0], JPEG_SIGNATURE. repeat split; reflexivity.
    + exists [xff; xd8; xff], JPEG_SIGNATURE. repeat split; reflexivity.
  - constructor; [|constructor].
    exists [xff; xd8; xff; xe0], ("RGB", [xff; xd8; xff; xe0]).
    repeat split; try reflexivity. left. split; reflexivity.
  - reflexivity.
  - left. reflexivity.
Defined.

(** ** rotate_pdf and the files it touches *)

Section rotating.
Context {O : Platform} {B : Backend}.

(** A write changes nothing but the file written. *)
Lemma write_frame (p q : path) (o : outcome (list byte)) s :
  p <> q ->
  stat ((open_wb p ;; data <- lift o ;; write_bytes p data) s).1 q = stat s q.
Proof.
  intros Hne. unfold bind, lift, open_wb, write_bytes.
  destruct (stat s p) as [[|c re]|].
  - reflexivity.
  - destruct o as [data|e]; cbn [fst].
    + rewrite lookup_insert_eq. cbn [fst]. rewrite !stat_insert_ne by exact Hne.
      reflexivity.
    + apply stat_insert_ne. exact Hne.
  - destruct (stat s (parent p)) as [[|c re]|]; try reflexivity.
    destruct o as [data|e]; cbn [fst].
    + rewrite lookup_insert_eq. cbn [fst]. rewrite !stat_insert_ne by exact Hne.
      reflexivity.
    + apply stat_insert_ne. exact Hne.
Qed.

(** X9. [rotate_pdf] changes nothing but its output file: whatever the
    arguments and the outcome, every other path holds after the call what
    it held before. In particular the input is left as it was unless it
    is the output. *)
Theorem rotate_pdf_touches_only_output (s : fs) (x out : pathlike)
    (rotation : Z) (q : path) :
  q <> Path out ->
  stat (PDFManager.rotate_pdf x out rotation s).1 q = stat s q.
Proof.
  intros Hne. rewrite rotate_pdf_run.
  destruct ((Validator.validate_pdf x s).2) as [b|e];
    [|destruct e; reflexivity].
  rewrite failed_to_state.
  unfold bind at 1.
  pose proof (PdfReader_pages_named_state x s) as Hr.
  destruct (PdfReader_pages_named x s) as [s1 [pages|e]]; simpl in Hr; subst s1;
    [|reflexivity].
  unfold bind at 1.
  pose proof (rotate_loop_state rotation pages [] s) as Hl.
  destruct (PDFManager.rotate_loop rotation pages [] s) as [s1 [writer|e]];
    simpl in Hl; subst s1; [|reflexivity].
  unfold bind at 1.
  pose proof (write_frame (Path out) q (pdf_write writer) s (not_eq_sym Hne)) as Hw.
  unfold write_pdf.
  destruct ((open_wb (Path out) ;; data <- lift (pdf_write writer) ;;
             write_bytes (Path out) data) s) as [s1 [[]|e]]; exact Hw.
Qed.


End rotating.

Lemma rotate_pdf_touches_only_output_witness :
  stat (PDFManager.rotate_pdf (B := Toy.backend)
          (PStr "docs/a.pdf") (PStr "docs/rotated.pdf") 90 Toy.disk).1
       (parse_path "docs/a.pdf")
  = Some (File Toy.two_pages None).
Proof.
  rewrite (rotate_pdf_touches_only_output (B := Toy.backend) Toy.disk
             (PStr "docs/a.pdf") (PStr "docs/rotated.pdf") 90%Z
             (parse_path "docs/a.pdf")).
  - reflexivity.
  - discriminate.
Defined.


(** ** The files of split_pdf *)

Lemma str_app_inv_head a b c : a +:+ b = a +:+ c -> b = c.
Proof. induction a as [|x a IH]; simpl; [auto|]. intros [= H]. auto. Qed.

Lemma str_app_inv_tail a b c : b +:+ a = c +:+ a -> b = c.
Proof.
  revert c. induction b as [|x b IH]; intros [|y c]; simpl; intros H.
  - reflexivity.
  - apply (f_equal String.length) in H.
    rewrite ?str_length_app in H. simpl in H. rewrite ?str_length_app in H. lia.
  - apply (f_equal String.length) in H.
    rewrite ?str_length_app in H. simpl in H. rewrite ?str_length_app in H. lia.
  - injection H as -> H. f_equal. auto.
Qed.

Lemma to_uint_nonnil n : Nat.to_uint n <> Decimal.Nil.
Proof.
  rewrite <- (Unsigned.of_to n) at 1. rewrite Unsigned.to_of.
  apply DecimalFacts.unorm_nonnil.
Qed.

(** Different numbers print differently. *)
Lemma str_of_nat_inj n m : str_of_nat n = str_of_nat m -> n = m.
Proof.
  unfold str_of_nat. intros H.
  apply (f_equal NilZero.uint_of_string) in H.
  rewrite !NilZero.usu in H by apply to_uint_nonnil.
  injection H as H. apply Unsigned.to_uint_inj. exact H.
Qed.

Lemma page_file_name_inj base n m :
  page_file_name base n = page_file_name base m -> n = m.
Proof.
  unfold page_file_name. intros H.
  apply str_app_inv_head in H. apply (str_app_inv_head "_page_") in H.
  apply str_app_inv_tail in H. apply str_of_nat_inj. exact H.
Qed.

Lemma page_path_inj out_dir base n m :
  no_slash base = true ->
  joinpath out_dir (page_file_name base n) = joinpath out_dir (page_file_name base m) ->
  n = m.
Proof.
  intros Hbase H. apply (f_equal name) in H.
  destruct (joinpath_part out_dir _ (wf_part_page_file_name base n Hbase))
    as (_ & Hn & _).
  destruct (joinpath_part out_dir _ (wf_part_page_file_name base m Hbase))
    as (_ & Hm & _).
  rewrite Hn, Hm in H. eapply page_file_name_inj. exact H.
Qed.

Lemma page_path_parts out_dir base n :
  no_slash base = true ->
  parts (joinpath out_dir (page_file_name base n)) <> [].
Proof.
  intros Hbase.
  destruct (joinpath_part out_dir _ (wf_part_page_file_name base n Hbase))
    as (-> & _). cbn [parts]. intros H. apply app_eq_nil in H as [_ [=]].
Qed.

Lemma str_take_drop i x : str_take i x +:+ str_drop i x = x.
Proof.
  revert x. induction i as [|i IH]; intros [|c x]; try reflexivity.
  cbn [str_take str_drop]. change (String c ?a +:+ ?b) with (String c (a +:+ b)).
  f_equal. apply IH.
Qed.

Lemma rfind_drop c x i :
  rfind c x = Some i -> exists rest, str_drop i x = String c rest.
Proof.
  revert i. induction x as [|a x IH]; intros i; simpl; [discriminate|].
  destruct (rfind c x) as [j|].
  - intros [= <-]. simpl. apply IH. reflexivity.
  - destruct (Ascii.eqb_spec a c) as [->|_]; [|discriminate].
    intros [= <-]. simpl. eauto.
Qed.

Lemma str_app_nil_r x : x +:+ "" = x.
Proof.
  induction x as [|c x IH]; [reflexivity|].
  change (String c x +:+ "") with (String c (x +:+ "")). f_equal. exact IH.
Qed.

(** The name of a file is its stem followed by its suffix, and the suffix
    is empty or starts with a dot. *)
Lemma name_stem_suffix p :
  name p = stem p +:+ suffix p
  /\ (suffix p = "" \/ exists rest, suffix p = String "." rest).
Proof.
  unfold stem, suffix. destruct (rfind "." (name p)) as [i|] eqn:Hr.
  - destruct (_ && _).
    + split; [symmetry; apply str_take_drop|]. right. eapply rfind_drop. exact Hr.
    + split; [symmetry; apply str_app_nil_r|left; reflexivity].
  - split; [symmetry; apply str_app_nil_r|left; reflexivity].
Qed.

(** No page file is the input file. *)
Lemma page_path_not_input out_dir p n :
  no_slash (stem p) = true ->
  joinpath out_dir (page_file_name (stem p) n) <> p.
Proof.
  intros Hbase H. apply (f_equal name) in H.
  destruct (joinpath_part out_dir _ (wf_part_page_file_name (stem p) n Hbase))
    as (_ & Hn & _).
  rewrite Hn in H. destruct (name_stem_suffix p) as (Hname & Hsuffix).
  rewrite Hname in H. unfold page_file_name in H.
  apply str_app_inv_head in H.
  destruct Hsuffix as [Hs|[rest Hs]]; rewrite Hs in H; discriminate H.
Qed.

Lemma written_all_other s files q :
  q ∉ files.*1 -> stat (written_all s files) q = stat s q.
Proof.
  revert s. induction files as [|[p data] files IH]; intros s Hq; [reflexivity|].
  cbn [written_all]. cbn [fmap list_fmap fst] in Hq.
  apply not_elem_of_cons in Hq as [Hne Hq].
  rewrite IH by exact Hq. apply stat_written_ne. congruence.
Qed.

Lemma written_all_lookup s files i p data :
  NoDup files.*1 -> files !! i = Some (p, data) -> parts p <> [] ->
  exists re, stat (written_all s files) p = Some (File data re).
Proof.
  revert s i. induction files as [|[p0 d0] files IH]; intros s i Hnd Hi Hparts.
  - rewrite lookup_nil in Hi. discriminate Hi.
  - cbn [fmap list_fmap fst] in Hnd. apply NoDup_cons in Hnd as [Hnot Hnd].
    cbn [written_all]. destruct i as [|i].
    + injection Hi as -> ->. rewrite written_all_other by exact Hnot.
      unfold written. eexists. apply stat_insert_eq. exact Hparts.
    + apply (IH _ i); assumption.
Qed.

Section split_files.
Context {O : Platform} {B : Backend}.

(** The loop of [split_pdf] with the file system it leaves. *)
Lemma split_loop_written out_dir base pages datas i generated s :
  no_slash base = true ->
  Forall2 (fun page data => pdf_write [page] = Return data) pages datas ->
  stat s out_dir = Some Dir ->
  (forall n, i < n <= i + length pages ->
             stat s (joinpath out_dir (page_file_name base n)) <> Some Dir) ->
  PDFManager.split_loop out_dir base i pages generated s
  = (written_all s
       (zip (map (fun n => joinpath out_dir (page_file_name base n))
                 (seq (S i) (length pages))) datas),
     Return (generated
             ++ map (fun n => joinpath out_dir (page_file_name base n))
                    (seq (S i) (length pages)))).
Proof.
  intros Hbase Hall. revert i generated s.
  induction Hall as [|page data pages datas Hpage _ IH];
    intros i generated s Hdir Hfree.
  - simpl. rewrite app_nil_r. reflexivity.
  - set (out := joinpath out_dir (page_file_name base (i + 1))).
    assert (Hparent : parent out = out_dir)
      by (apply joinpath_part, wf_part_page_file_name, Hbase).
    assert (Hout : stat s out <> Some Dir)
      by (apply Hfree; cbn [length]; lia).
    assert (Hcan : can_write s out = true).
    { unfold can_write. rewrite Hparent, Hdir.
      destruct (stat s out) as [[|c re]|]; [contradiction|reflexivity..]. }
    pose proof (written_same_dirs s out data Hcan) as Hsame.
    cbn [PDFManager.split_loop].
    change (base +:+ "_page_" +:+ str_of_nat (i + 1) +:+ ".pdf")
      with (page_file_name base (i + 1)).
    fold out. unfold bind at 1. unfold write_pdf.
    rewrite (write_ok _ _ data _ Hcan Hpage).
    rewrite IH.
    + rewrite <- app_assoc. cbn [length seq map app zip zip_with written_all].
      unfold out. rewrite Nat.add_1_r. reflexivity.
    + apply Hsame. exact Hdir.
    + intros n Hn Hst. apply Hsame in Hst. revert Hst. apply Hfree.
      cbn [length]. lia.
Qed.


End split_files.


Section split_fails.
Context {O : Platform} {B : Backend}.

Lemma open_wb_ok p s :
  can_write s p = true ->
  exists re, open_wb p s = (<[p := File [] re]> s, Return tt).
Proof.
  unfold can_write, open_wb.
  destruct (stat s p) as [[|d re]|]; [discriminate|eauto|].
  destruct (stat s (parent p)) as [[|d re]|]; try discriminate. eauto.
Qed.

(** The loop of [split_pdf] when the library fails on a page: the files
    of the pages before it are written, the file of the page is opened
    and left empty. *)
Lemma split_loop_fails out_dir base before page after datas e i generated s :
  no_slash base = true ->
  Forall2 (fun p data => pdf_write [p] = Return data) before datas ->
  pdf_write [page] = Raise e ->
  stat s out_dir = Some Dir ->
  (forall n, i < n <= i + length before + 1 ->
             stat s (joinpath out_dir (page_file_name base n)) <> Some Dir) ->
  exists re,
    PDFManager.split_loop out_dir base i (before ++ page :: after) generated s
    = (<[joinpath out_dir (page_file_name base (i + length before + 1))
         := File [] re]>
         (written_all s
            (zip (map (fun n => joinpath out_dir (page_file_name base n))
                      (seq (S i) (length before))) datas)),
       Raise e).
Proof.
  intros Hbase Hall Hpage. revert i generated s.
  induction Hall as [|p data before datas Hp _ IH];
    intros i generated s Hdir Hfree.
  - set (out := joinpath out_dir (page_file_name base (i + 1))).
    assert (Hparent : parent out = out_dir)
      by (apply joinpath_part, wf_part_page_file_name, Hbase).
    assert (Hout : stat s out <> Some Dir)
      by (apply Hfree; cbn [length]; lia).
    assert (Hcan : can_write s out = true).
    { unfold can_write. rewrite Hparent, Hdir.
      destruct (stat s out) as [[|c re]|]; [contradiction|reflexivity..]. }
    destruct (open_wb_ok _ _ Hcan) as [re Hopen]. exists re.
    cbn [app PDFManager.split_loop length seq map zip_with written_all].
    change (base +:+ "_page_" +:+ str_of_nat (i + 1) +:+ ".pdf")
      with (page_file_name base (i + 1)).
    fold out. unfold bind at 1. unfold write_pdf, bind, lift.
    rewrite Hopen, Hpage. rewrite Nat.add_0_r. reflexivity.
  - set (out := joinpath out_dir (page_file_name base (i + 1))).
    assert (Hparent : parent out = out_dir)
      by (apply joinpath_part, wf_part_page_file_name, Hbase).
    assert (Hout : stat s out <> Some Dir)
      by (apply Hfree; cbn [length]; lia).
    assert (Hcan : can_write s out = true).
    { unfold can_write. rewrite Hparent, Hdir.
      destruct (stat s out) as [[|c re]|]; [contradiction|reflexivity..]. }
    pose proof (written_same_dirs s out data Hcan) as Hsame.
    destruct (IH (S i) (generated ++ [out]) (written s out data)) as [re Hrun].
    { apply Hsame. exact Hdir. }
    { intros n Hn Hst. apply Hsame in Hst. revert Hst. apply Hfree.
      cbn [length]. lia. }
    exists re. rewrite <- app_comm_cons. cbn [PDFManager.split_loop].
    change (base +:+ "_page_" +:+ str_of_nat (i + 1) +:+ ".pdf")
      with (page_file_name base (i + 1)).
    fold out. unfold bind at 1. unfold write_pdf.
    rewrite (write_ok _ _ data _ Hcan Hp).
    replace (S i + length before + 1) with (i + length (p :: before) + 1) in Hrun
      by (cbn [length]; lia).
    rewrite Hrun.
    cbn [length seq map zip_with written_all].
    unfold out. rewrite (Nat.add_1_r i). reflexivity.
Qed.


End split_fails.


(** ** The file list of the pages *)

Lemma FileList_index_app x l1 l2 :
  x ∉ l1 -> FileList.index x (l1 ++ x :: l2) = Some (length l1).
Proof.
  induction l1 as [|y l1 IH]; intros Hnot; cbn [app FileList.index length].
  - destruct (decide (x = x)); [reflexivity|contradiction].
  - apply not_elem_of_cons in Hnot as [Hne Hnot].
    destruct (decide (y = x)); [congruence|]. rewrite (IH Hnot). reflexivity.
Qed.

Lemma FileList_index_Some x l idx :
  FileList.index x l = Some idx ->
  exists l1 l2, l = l1 ++ x :: l2 /\ length l1 = idx /\ x ∉ l1.
Proof.
  revert idx. induction l as [|y l IH]; intros idx; cbn [FileList.index].
  - discriminate.
  - destruct (decide (y = x)) as [->|Hne].
    + intros [= <-]. exists [], l. repeat split. apply not_elem_of_nil.
    + destruct (FileList.index x l) as [k|] eqn:Hk; [|discriminate].
      intros [= <-]. destruct (IH k eq_refl) as (l1 & l2 & -> & Hlen & Hnot).
      exists (y :: l1), l2. repeat split.
      * cbn [length]. rewrite Hlen. reflexivity.
      * apply not_elem_of_cons. split; [congruence|exact Hnot].
Qed.

Lemma FileList_index_None x l : FileList.index x l = None <-> x ∉ l.
Proof.
  induction l as [|y l IH]; cbn [FileList.index].
  - split; [intros _; apply not_elem_of_nil|reflexivity].
  - rewrite not_elem_of_cons. destruct (decide (y = x)) as [->|Hne].
    + split; [discriminate|intros [H _]; contradiction].
    + destruct (FileList.index x l) as [k|].
      * split; [discriminate|]. intros [_ H]. apply IH in H. discriminate H.
      * split; [|reflexivity]. intros _. split; [congruence|]. apply IH. reflexivity.
Qed.

Lemma FileList_swap_cons i j c l :
  FileList.swap (S i) (S j) (c :: l)
  = match FileList.swap i j l with
    | inr l' => inr (c :: l')
    | inl e => inl e
    end.
Proof.
  unfold FileList.swap. cbn [lookup list_lookup].
  change ((c :: l) !! S j) with (l !! j). change ((c :: l) !! S i) with (l !! i).
  destruct (l !! j), (l !! i); reflexivity.
Qed.

(** Exchanging two neighbours, whichever of the two indices comes first. *)
Lemma FileList_swap_adjacent l1 a b l2 :
  FileList.swap (S (length l1)) (length l1) (l1 ++ a :: b :: l2)
  = inr (l1 ++ b :: a :: l2)
  /\ FileList.swap (length l1) (S (length l1)) (l1 ++ a :: b :: l2)
     = inr (l1 ++ b :: a :: l2).
Proof.
  induction l1 as [|c l1 [IH1 IH2]]; [split; reflexivity|].
  cbn [length app]. rewrite !FileList_swap_cons, IH1, IH2. split; reflexivity.
Qed.

Lemma FileList_forget_all l shown :
  fold_left (fun sh item => FileList.pack_forget item sh) l shown
  = List.filter (fun y => negb (bool_decide (y ∈ l))) shown.
Proof.
  revert shown. induction l as [|x l IH]; intros shown; cbn [fold_left].
  - induction shown as [|y shown IHs]; [reflexivity|].
    cbn [List.filter]. rewrite bool_decide_eq_false_2 by apply not_elem_of_nil.
    cbn [negb]. f_equal. exact IHs.
  - rewrite IH. unfold FileList.pack_forget.
    induction shown as [|y shown IHs]; [reflexivity|].
    cbn [List.filter].
    destruct (decide (y = x)) as [->|Hne].
    + rewrite (bool_decide_eq_true_2 (x = x)) by reflexivity. cbn [negb].
      rewrite (bool_decide_eq_true_2 (x ∈ x :: l)) by apply list_elem_of_here.
      cbn [negb]. exact IHs.
    + rewrite (bool_decide_eq_false_2 (y = x)) by exact Hne. cbn [negb List.filter].
      destruct (decide (y ∈ l)) as [Hin|Hnot].
      * rewrite (bool_decide_eq_true_2 (y ∈ l)) by exact Hin.
        rewrite (bool_decide_eq_true_2 (y ∈ x :: l))
          by (apply list_elem_of_further; exact Hin).
        cbn [negb]. exact IHs.
      * rewrite (bool_decide_eq_false_2 (y ∈ l)) by exact Hnot.
        rewrite (bool_decide_eq_false_2 (y ∈ x :: l))
          by (apply not_elem_of_cons; split; assumption).
        cbn [negb]. f_equal. exact IHs.
Qed.

Lemma FileList_forget_all_nil l shown :
  (forall y, y ∈ shown -> y ∈ l) ->
  fold_left (fun sh item => FileList.pack_forget item sh) l shown = [].
Proof.
  intros Hsub. rewrite FileList_forget_all.
  induction shown as [|y shown IH]; [reflexivity|].
  cbn [List.filter].
  rewrite bool_decide_eq_true_2 by (apply Hsub, list_elem_of_here).
  cbn [negb]. apply IH. intros z Hz. apply Hsub, list_elem_of_further, Hz.
Qed.

Lemma FileList_pack_all l shown :
  NoDup (shown ++ l) ->
  fold_left (fun sh item => FileList.pack item sh) l shown = shown ++ l.
Proof.
  revert shown. induction l as [|x l IH]; intros shown Hnd; cbn [fold_left].
  - rewrite app_nil_r. reflexivity.
  - unfold FileList.pack at 2.
    assert (Hnot : x ∉ shown).
    { apply NoDup_app in Hnd as (_ & Hdisj & _). intros Hin.
      apply (Hdisj x Hin). apply list_elem_of_here. }
    destruct (decide (x ∈ shown)); [contradiction|].
    rewrite IH; rewrite <- app_assoc; [reflexivity|exact Hnd].
Qed.

(** Repacking shows the items in the order of the list. *)
Lemma FileList_repack_all items shown next :
  NoDup items -> (forall y, y ∈ shown -> y ∈ items) ->
  FileList._repack_all (FileList.mkState items shown next)
  = FileList.mkState items items next.
Proof.
  intros Hnd Hsub. unfold FileList._repack_all.
  cbn [FileList.file_items FileList.packed FileList.next_oid].
  rewrite (FileList_forget_all_nil _ _ Hsub), FileList_pack_all; [reflexivity|].
  exact Hnd.
Qed.

(** What [move_up] and [move_down] do to a list that is shown as it is:
    the item and its neighbour change places, on screen as in the list. *)
Lemma FileList_move_up_neighbour l1 y item l2 next :
  NoDup (l1 ++ y :: item :: l2) ->
  FileList.move_up
    (FileList.mkState (l1 ++ y :: item :: l2) (l1 ++ y :: item :: l2) next) item
  = inr (FileList.mkState (l1 ++ item :: y :: l2) (l1 ++ item :: y :: l2) next).
Proof.
  intros Hnd.
  assert (Hperm : l1 ++ item :: y :: l2 ≡ₚ l1 ++ y :: item :: l2)
    by (apply Permutation_app_head, perm_swap).
  assert (Heq : l1 ++ y :: item :: l2 = (l1 ++ [y]) ++ item :: l2)
    by (rewrite <- app_assoc; reflexivity).
  assert (Hidx : FileList.index item (l1 ++ y :: item :: l2) = Some (S (length l1))).
  { rewrite Heq.
    replace (S (length l1)) with (length (l1 ++ [y]))
      by (rewrite length_app; cbn [length]; lia).
    apply FileList_index_app. intros Hin. rewrite Heq in Hnd.
    apply NoDup_app in Hnd as (_ & Hdisj & _).
    apply (Hdisj item Hin). apply list_elem_of_here. }
  clear Heq.
  unfold FileList.move_up. cbn [FileList.file_items FileList.packed FileList.next_oid].
  rewrite Hidx. cbn [Nat.ltb Nat.leb Nat.sub].
  rewrite Nat.sub_0_r.
  rewrite (proj1 (FileList_swap_adjacent l1 y item l2)).
  rewrite FileList_repack_all; [reflexivity| |].
  - rewrite Hperm. exact Hnd.
  - intros z Hz. rewrite Hperm. exact Hz.
Qed.

Lemma FileList_move_down_neighbour l1 item y l2 next :
  NoDup (l1 ++ item :: y :: l2) ->
  FileList.move_down
    (FileList.mkState (l1 ++ item :: y :: l2) (l1 ++ item :: y :: l2) next) item
  = inr (FileList.mkState (l1 ++ y :: item :: l2) (l1 ++ y :: item :: l2) next).
Proof.
  intros Hnd.
  assert (Hperm : l1 ++ y :: item :: l2 ≡ₚ l1 ++ item :: y :: l2)
    by (apply Permutation_app_head, perm_swap).
  assert (Hidx : FileList.index item (l1 ++ item :: y :: l2) = Some (length l1)).
  { apply FileList_index_app. intros Hin.
    apply NoDup_app in Hnd as (_ & Hdisj & _).
    apply (Hdisj item Hin). apply list_elem_of_here. }
  unfold FileList.move_down.
  cbn [FileList.file_items FileList.packed FileList.next_oid].
  rewrite Hidx.
  assert (Hlt : Nat.ltb (length l1) (length (l1 ++ item :: y :: l2) - 1) = true).
  { apply Nat.ltb_lt. rewrite length_app. cbn [length]. lia. }
  rewrite Hlt, Nat.add_1_r.
  rewrite (proj2 (FileList_swap_adjacent l1 item y l2)).
  rewrite FileList_repack_all; [reflexivity| |].
  - rewrite Hperm. exact Hnd.
  - intros z Hz. rewrite Hperm. exact Hz.
Qed.

Lemma FileList_remove_split x l1 l2 :
  x ∉ l1 -> FileList.remove x (l1 ++ x :: l2) = l1 ++ l2.
Proof.
  induction l1 as [|y l1 IH]; intros Hnot; cbn [app FileList.remove].
  - destruct (decide (x = x)); [reflexivity|contradiction].
  - apply not_elem_of_cons in Hnot as [Hne Hnot].
    destruct (decide (y = x)); [congruence|]. rewrite (IH Hnot). reflexivity.
Qed.

Lemma FileList_forget_absent x l : x ∉ l -> FileList.pack_forget x l = l.
Proof.
  unfold FileList.pack_forget. induction l as [|y l IH]; intros Hnot; [reflexivity|].
  apply not_elem_of_cons in Hnot as [Hne Hnot]. cbn [List.filter].
  rewrite bool_decide_eq_false_2 by congruence. cbn [negb]. f_equal. auto.
Qed.

Lemma FileList_forget_split x l1 l2 :
  x ∉ l1 -> x ∉ l2 -> FileList.pack_forget x (l1 ++ x :: l2) = l1 ++ l2.
Proof.
  intros H1 H2. unfold FileList.pack_forget. rewrite List.filter_app.
  cbn [List.filter]. rewrite (bool_decide_eq_true_2 (x = x)) by reflexivity.
  cbn [negb]. fold (FileList.pack_forget x l1). fold (FileList.pack_forget x l2).
  rewrite !FileList_forget_absent by assumption. reflexivity.
Qed.

Lemma FileList_move_up_run (self : FileList.state) (item : FileList.FileItem) :
  FileList.consistent self ->
  ((item ∉ FileList.file_items self)
   /\ FileList.move_up self item
      = inl (FileList.ValueError "list.index(x): x not in list"))
  \/ (exists l2, FileList.file_items self = item :: l2
                 /\ FileList.move_up self item = inr self)
  \/ (exists l1 y l2,
        FileList.file_items self = l1 ++ y :: item :: l2
        /\ FileList.move_up self item
           = inr (FileList.mkState (l1 ++ item :: y :: l2)
                                   (l1 ++ item :: y :: l2)
                                   (FileList.next_oid self))).
Proof.
  destruct self as [items shown next]. unfold FileList.consistent.
  cbn [FileList.file_items FileList.packed FileList.next_oid].
  intros (-> & Hnd & _).
  destruct (FileList.index item items) as [idx|] eqn:Hidx.
  - destruct (FileList_index_Some _ _ _ Hidx) as (l1' & l2 & -> & Hlen & Hnot).
    destruct l1' as [|z l1'] using rev_ind.
    + right. left. exists l2. split; [reflexivity|].
      unfold FileList.move_up. cbn [FileList.file_items]. rewrite Hidx.
      cbn [length] in Hlen. subst idx. reflexivity.
    + clear IHl1'. right. right. exists l1', z, l2.
      rewrite <- app_assoc. cbn [app]. split; [reflexivity|].
      rewrite <- app_assoc in Hnd. cbn [app] in Hnd.
      apply FileList_move_up_neighbour. exact Hnd.
  - left. split; [apply FileList_index_None; exact Hidx|].
    unfold FileList.move_up. cbn [FileList.file_items]. rewrite Hidx. reflexivity.
Qed.

(** X13. What [move_up] does, on a list that is shown as it is: an item
    that is not in the list raises [ValueError]; the first item stays
    where it is; any other item changes places with the item before it,
    in the list and on screen, and nothing else moves. *)
Theorem FileList_move_up_cases (self : FileList.state) (item : FileList.FileItem) :
  FileList.consistent self ->
  ((item ∉ FileList.file_items self)
   /\ FileList.move_up self item
      = inl (FileList.ValueError "list.index(x): x not in list"))
  \/ (exists l2, FileList.file_items self = item :: l2
                 /\ FileList.move_up self item = inr self)
  \/ (exists l1 y l2,
        FileList.file_items self = l1 ++ y :: item :: l2
        /\ FileList.move_up self item
           = inr (FileList.mkState (l1 ++ item :: y :: l2)
                                   (l1 ++ item :: y :: l2)
                                   (FileList.next_oid self))).
Proof. apply FileList_move_up_run. Qed.

Lemma FileList_move_down_run (self : FileList.state) (item : FileList.FileItem) :
  FileList.consistent self ->
  ((item ∉ FileList.file_items self)
   /\ FileList.move_down self item
      = inl (FileList.ValueError "list.index(x): x not in list"))
  \/ (exists l1, FileList.file_items self = l1 ++ [item]
                 /\ FileList.move_down self item = inr self)
  \/ (exists l1 y l2,
        FileList.file_items self = l1 ++ item :: y :: l2
        /\ FileList.move_down self item
           = inr (FileList.mkState (l1 ++ y :: item :: l2)
                                   (l1 ++ y :: item :: l2)
                                   (FileList.next_oid self))).
Proof.
  destruct self as [items shown next]. unfold FileList.consistent.
  cbn [FileList.file_items FileList.packed FileList.next_oid].
  intros (-> & Hnd & _).
  destruct (FileList.index item items) as [idx|] eqn:Hidx.
  - destruct (FileList_index_Some _ _ _ Hidx) as (l1 & l2 & -> & Hlen & Hnot).
    destruct l2 as [|y l2].
    + right. left. exists l1. split; [reflexivity|].
      unfold FileList.move_down. cbn [FileList.file_items]. rewrite Hidx.
      assert (Hlt : Nat.ltb idx (length (l1 ++ [item]) - 1) = false).
      { apply Nat.ltb_ge. rewrite length_app. cbn [length]. lia. }
      rewrite Hlt. reflexivity.
    + right. right. exists l1, y, l2. split; [reflexivity|].
      apply FileList_move_down_neighbour. exact Hnd.
  - left. split; [apply FileList_index_None; exact Hidx|].
    unfold FileList.move_down. cbn [FileList.file_items]. rewrite Hidx. reflexivity.
Qed.

(** X14. What [move_down] does, on a list that is shown as it is: an item
    that is not in the list raises [ValueError]; the last item stays where
    it is; any other item changes places with the item after it, in the
    list and on screen, and nothing else moves. *)
Theorem FileList_move_down_cases (self : FileList.state) (item : FileList.FileItem) :
  FileList.consistent self ->
  ((item ∉ FileList.file_items self)
   /\ FileList.move_down self item
      = inl (FileList.ValueError "list.index(x): x not in list"))
  \/ (exists l1, FileList.file_items self = l1 ++ [item]
                 /\ FileList.move_down self item = inr self)
  \/ (exists l1 y l2,
        FileList.file_items self = l1 ++ item :: y :: l2
        /\ FileList.move_down self item
           = inr (FileList.mkState (l1 ++ y :: item :: l2)
                                   (l1 ++ y :: item :: l2)
                                   (FileList.next_oid self))).
Proof. apply FileList_move_down_run. Qed.

Lemma FileList_two_items_consistent :
  FileList.consistent
    (FileList.add_file (FileList.add_file FileList.init "a.pdf") "b.pdf").
Proof.
  unfold FileList.consistent. split; [reflexivity|]. split.
  - apply NoDup_cons. split; [|apply NoDup_singleton].
    intros H. apply list_elem_of_singleton in H. discriminate H.
  - repeat constructor.
Defined.

Lemma FileList_move_up_cases_witness :
  FileList.move_up
    (FileList.add_file (FileList.add_file FileList.init "a.pdf") "b.pdf")
    (FileList.mkFileItem 1 "b.pdf")
  = inr (FileList.mkState
           [FileList.mkFileItem 1 "b.pdf"; FileList.mkFileItem 0 "a.pdf"]
           [FileList.mkFileItem 1 "b.pdf"; FileList.mkFileItem 0 "a.pdf"] 2).
Proof.
  destruct (FileList_move_up_cases _ (FileList.mkFileItem 1 "b.pdf")
              FileList_two_items_consistent)
    as [[_ H]|[(l2 & _ & H)|(l1 & y & l2 & _ & H)]].
  - vm_compute in H. discriminate H.
  - vm_compute in H. discriminate H.
  - reflexivity.
Defined.

Lemma FileList_move_down_cases_witness :
  FileList.move_down
    (FileList.add_file (FileList.add_file FileList.init "a.pdf") "b.pdf")
    (FileList.mkFileItem 0 "a.pdf")
  = inr (FileList.mkState
           [FileList.mkFileItem 1 "b.pdf"; FileList.mkFileItem 0 "a.pdf"]
           [FileList.mkFileItem 1 "b.pdf"; FileList.mkFileItem 0 "a.pdf"] 2).
Proof.
  destruct (FileList_move_down_cases _ (FileList.mkFileItem 0 "a.pdf")
              FileList_two_items_consistent)
    as [[_ H]|[(l1 & _ & H)|(l1 & y & l2 & _ & H)]].
  - vm_compute in H. discriminate H.
  - vm_compute in H. discriminate H.
  - reflexivity.
Defined.

Lemma FileList_consistent_swapped l1 a b l2 next :
  FileList.consistent
    (FileList.mkState (l1 ++ a :: b :: l2) (l1 ++ a :: b :: l2) next) ->
  FileList.consistent
    (FileList.mkState (l1 ++ b :: a :: l2) (l1 ++ b :: a :: l2) next).
Proof.
  unfold FileList.consistent.
  cbn [FileList.file_items FileList.packed FileList.next_oid].
  assert (Hperm : l1 ++ b :: a :: l2 ≡ₚ l1 ++ a :: b :: l2)
    by (apply Permutation_app_head, perm_swap).
  intros (_ & Hnd & Hall). split; [reflexivity|]. rewrite Hperm. auto.
Qed.

(** X15. The methods of the file list keep it consistent: starting from
    the empty list, after any [add_file], [remove_item], [move_up],
    [move_down] or [clear] the screen shows exactly the items of
    [file_items], in the order of [file_items], and no item twice. *)
Theorem FileList_consistent_kept (self : FileList.state) (path : string)
    (item : FileList.FileItem) :
  FileList.consistent self ->
  FileList.consistent FileList.init
  /\ FileList.consistent (FileList.add_file self path)
  /\ FileList.consistent (FileList.remove_item self item)
  /\ FileList.consistent (FileList.clear self)
  /\ (forall self', FileList.move_up self item = inr self' ->
                    FileList.consistent self')
  /\ (forall self', FileList.move_down self item = inr self' ->
                    FileList.consistent self').
Proof.
  intros Hc. split; [|split; [|split; [|split; [|split]]]].
  - unfold FileList.consistent. cbn. split; [reflexivity|].
    split; constructor.
  - destruct self as [items shown next]. destruct Hc as (Hp & Hnd & Hall).
    cbn [FileList.file_items FileList.packed FileList.next_oid] in *. subst shown.
    assert (Hnew : FileList.mkFileItem next path ∉ items).
    { intros Hin. rewrite Forall_forall in Hall. apply Hall in Hin.
      cbn [FileList.oid] in Hin. lia. }
    unfold FileList.consistent, FileList.add_file, FileList.pack.
    cbn [FileList.file_items FileList.packed FileList.next_oid].
    destruct (decide (FileList.mkFileItem next path ∈ items)); [contradiction|].
    split; [reflexivity|]. split.
    + apply NoDup_app. split; [exact Hnd|]. split; [|apply NoDup_singleton].
      intros y Hy Hy'. apply list_elem_of_singleton in Hy'. subst y. contradiction.
    + apply Forall_app. split.
      * eapply Forall_impl; [exact Hall|]. intros y Hy. cbv beta in *. lia.
      * constructor; [cbn [FileList.oid]; lia|constructor].
  - destruct self as [items shown next]. destruct Hc as (Hp & Hnd & Hall).
    cbn [FileList.file_items FileList.packed FileList.next_oid] in *. subst shown.
    unfold FileList.remove_item. cbn [FileList.file_items FileList.packed].
    destruct (decide (item ∈ items)) as [Hin|Hnot].
    + apply list_elem_of_split in Hin as (l1 & l2 & ->).
      apply NoDup_app in Hnd as (Hnd1 & Hdisj & Hnd2).
      apply NoDup_cons in Hnd2 as (Hnot2 & Hnd2).
      assert (Hnot1 : item ∉ l1).
      { intros Hin. apply (Hdisj item Hin). apply list_elem_of_here. }
      unfold FileList.consistent, FileList.destroy.
      cbn [FileList.file_items FileList.packed FileList.next_oid].
      rewrite (FileList_remove_split _ _ _ Hnot1),
        (FileList_forget_split _ _ _ Hnot1 Hnot2).
      split; [reflexivity|]. split.
      * apply NoDup_app. split; [exact Hnd1|]. split; [|exact Hnd2].
        intros y Hy Hy'. apply (Hdisj y Hy). apply list_elem_of_further. exact Hy'.
      * apply Forall_app in Hall as [Hall1 Hall2]. inversion Hall2; subst.
        apply Forall_app. split; assumption.
    + unfold FileList.consistent. cbn. auto.
  - destruct self as [items shown next]. destruct Hc as (Hp & Hnd & Hall).
    cbn [FileList.file_items FileList.packed FileList.next_oid] in *. subst shown.
    unfold FileList.consistent, FileList.clear, FileList.destroy.
    cbn [FileList.file_items FileList.packed FileList.next_oid].
    rewrite FileList_forget_all_nil by auto.
    split; [reflexivity|]. split; constructor.
  - intros self' Hrun.
    destruct (FileList_move_up_run self item Hc)
      as [[_ H]|[(l2 & _ & H)|(l1 & y & l2 & Hitems & H)]];
      rewrite H in Hrun; [discriminate Hrun|injection Hrun as <-; exact Hc|].
    injection Hrun as <-. apply FileList_consistent_swapped.
    destruct self as [items shown next]. destruct Hc as (Hp & Hnd & Hall).
    cbn [FileList.file_items FileList.packed FileList.next_oid] in *.
    subst shown items. repeat split; assumption.
  - intros self' Hrun.
    destruct (FileList_move_down_run self item Hc)
      as [[_ H]|[(l1 & _ & H)|(l1 & y & l2 & Hitems & H)]];
      rewrite H in Hrun; [discriminate Hrun|injection Hrun as <-; exact Hc|].
    injection Hrun as <-. apply FileList_consistent_swapped.
    destruct self as [items shown next]. destruct Hc as (Hp & Hnd & Hall).
    cbn [FileList.file_items FileList.packed FileList.next_oid] in *.
    subst shown items. repeat split; assumption.
Qed.

Lemma FileList_consistent_kept_witness :
  FileList.consistent
    (FileList.remove_item
       (FileList.add_file (FileList.add_file FileList.init "a.pdf") "b.pdf")
       (FileList.mkFileItem 0 "a.pdf")).
Proof.
  exact (proj1 (proj2 (proj2
           (FileList_consistent_kept _ "" (FileList.mkFileItem 0 "a.pdf")
              FileList_two_items_consistent)))).
Defined.

(** X16. Moving an item up and then down again, or down and then up
    again, puts the list back as it was, provided the item is in the list
    and has an item before it (respectively after it). *)
Theorem FileList_move_up_down_inverse (self : FileList.state)
    (item y : FileList.FileItem) (l1 l2 : list FileList.FileItem) :
  FileList.consistent self ->
  (FileList.file_items self = l1 ++ y :: item :: l2 ->
   exists self', FileList.move_up self item = inr self'
                 /\ FileList.move_down self' item = inr self)
  /\ (FileList.file_items self = l1 ++ item :: y :: l2 ->
      exists self', FileList.move_down self item = inr self'
                    /\ FileList.move_up self' item = inr self).
Proof.
  intros Hc. destruct self as [items shown next].
  pose proof Hc as (Hp & Hnd & Hall).
  cbn [FileList.file_items FileList.packed FileList.next_oid] in *. subst shown.
  split; intros ->.
  - eexists. split; [apply FileList_move_up_neighbour; exact Hnd|].
    apply FileList_move_down_neighbour.
    assert (Hperm : l1 ++ item :: y :: l2 ≡ₚ l1 ++ y :: item :: l2)
      by (apply Permutation_app_head, perm_swap).
    rewrite Hperm. exact Hnd.
  - eexists. split; [apply FileList_move_down_neighbour; exact Hnd|].
    apply FileList_move_up_neighbour.
    assert (Hperm : l1 ++ y :: item :: l2 ≡ₚ l1 ++ item :: y :: l2)
      by (apply Permutation_app_head, perm_swap).
    rewrite Hperm. exact Hnd.
Qed.

Lemma FileList_move_up_down_inverse_witness :
  exists self',
    FileList.move_up
      (FileList.add_file (FileList.add_file FileList.init "a.pdf") "b.pdf")
      (FileList.mkFileItem 1 "b.pdf") = inr self'
    /\ FileList.move_down self' (FileList.mkFileItem 1 "b.pdf")
       = inr (FileList.add_file (FileList.add_file FileList.init "a.pdf") "b.pdf").
Proof.
  apply (proj1 (FileList_move_up_down_inverse _ (FileList.mkFileItem 1 "b.pdf")
                  (FileList.mkFileItem 0 "a.pdf") [] []
                  FileList_two_items_consistent)).
  reflexivity.
Defined.

(** X17. [add_file] puts the new path last and keeps a path that is
    already listed, so that a file can be listed twice; [remove_item]
    takes out the one item it is given and leaves the others in their
    order; on an item that is not in the list it does nothing, where
    [move_up] and [move_down] raise; [clear] empties the list. *)
Theorem FileList_add_remove_clear (self : FileList.state) (path : string)
    (item : FileList.FileItem) :
  FileList.consistent self ->
  FileList.get_paths (FileList.add_file self path)
  = FileList.get_paths self ++ [path]
  /\ FileList.get_paths (FileList.add_file (FileList.add_file self path) path)
     = FileList.get_paths self ++ [path; path]
  /\ (forall l1 l2, FileList.file_items self = l1 ++ item :: l2 ->
        FileList.file_items (FileList.remove_item self item) = l1 ++ l2
        /\ FileList.get_paths (FileList.remove_item self item)
           = map FileList.item_path l1 ++ map FileList.item_path l2)
  /\ ((item ∉ FileList.file_items self) ->
      FileList.remove_item self item = self
      /\ FileList.move_up self item
         = inl (FileList.ValueError "list.index(x): x not in list")
      /\ FileList.move_down self item
         = inl (FileList.ValueError "list.index(x): x not in list"))
  /\ FileList.get_paths (FileList.clear self) = [].
Proof.
  intros Hc. destruct self as [items shown next].
  pose proof Hc as (Hp & Hnd & Hall).
  cbn [FileList.file_items FileList.packed FileList.next_oid] in *. subst shown.
  split; [|split; [|split; [|split]]].
  - unfold FileList.get_paths, FileList.add_file. cbn [FileList.file_items].
    rewrite map_app. reflexivity.
  - unfold FileList.get_paths, FileList.add_file. cbn [FileList.file_items].
    rewrite !map_app, <- app_assoc. reflexivity.
  - intros l1 l2 ->.
    apply NoDup_app in Hnd as (_ & Hdisj & _).
    assert (Hnot1 : item ∉ l1).
    { intros Hin. apply (Hdisj item Hin). apply list_elem_of_here. }
    unfold FileList.get_paths, FileList.remove_item. cbn [FileList.file_items].
    rewrite decide_True by (apply elem_of_app; right; apply list_elem_of_here).
    cbn [FileList.file_items].
    rewrite (FileList_remove_split _ _ _ Hnot1), map_app. split; reflexivity.
  - intros Hnot. split; [|split].
    + unfold FileList.remove_item. cbn [FileList.file_items].
      rewrite decide_False by exact Hnot. reflexivity.
    + unfold FileList.move_up. cbn [FileList.file_items].
      rewrite (proj2 (FileList_index_None _ _) Hnot). reflexivity.
    + unfold FileList.move_down. cbn [FileList.file_items].
      rewrite (proj2 (FileList_index_None _ _) Hnot). reflexivity.
  - reflexivity.
Qed.

Lemma FileList_add_remove_clear_witness :
  FileList.get_paths
    (FileList.remove_item
       (FileList.add_file (FileList.add_file FileList.init "a.pdf") "b.pdf")
       (FileList.mkFileItem 0 "a.pdf"))
  = ["b.pdf"].
Proof.
  destruct (FileList_add_remove_clear
              (FileList.add_file (FileList.add_file FileList.init "a.pdf") "b.pdf")
              "c.pdf" (FileList.mkFileItem 0 "a.pdf")
              FileList_two_items_consistent)
    as (_ & _ & Hremove & _).
  destruct (Hremove [] [FileList.mkFileItem 1 "b.pdf"] eq_refl) as [_ ->].
  reflexivity.
Defined.

(** ** The handlers of the tools page *)

Section tools_page.
Context {O : Platform} {B : Backend}.

Lemma handler_catches_all {A} (m : M A)
    (done : A -> ToolsPage.messagebox) s :
  exists s' box,
    try_except (a <- m ;; ret (Some (done a)))
      (except_Exception
         (fun e => ret (Some (ToolsPage.showerror "Error" (str_exn e))))) s
    = (s', Return (Some box)).
Proof.
  unfold try_except, except_Exception, bind, ret.
  destruct (m s) as [s1 [a|e]]; eauto.
Qed.

(** X18. The two handlers never raise: whatever the operation raises,
    [PDFActionError] or not, is caught and shown in one error box, and a
    success is shown in one information box. When the user cancels either
    dialog nothing is called, changed or shown. *)
Theorem ToolsPage_handlers_never_raise (s : fs) (file out : string)
    (rotation_var : Z) :
  (exists s' r,
      ToolsPage.run_split file out s = (s', Return r)
      /\ (file = "" \/ out = "" -> s' = s /\ r = None)
      /\ (file <> "" -> out <> "" -> exists box, r = Some box))
  /\ (exists s' r,
      ToolsPage.run_rotate file out rotation_var s = (s', Return r)
      /\ (file = "" \/ out = "" -> s' = s /\ r = None)
      /\ (file <> "" -> out <> "" -> exists box, r = Some box)).
Proof.
  split.
  - unfold ToolsPage.run_split.
    destruct (String.eqb_spec file "") as [->|Hfile].
    { exists s, None. split; [reflexivity|]. split; [auto|]. intros H. contradiction. }
    destruct (String.eqb_spec out "") as [->|Hout].
    { exists s, None. split; [reflexivity|]. split; [auto|]. intros _ H. contradiction. }
    destruct (handler_catches_all
                (PDFManager.split_pdf (PStr file) (PStr out))
                (fun files =>
                   ToolsPage.showinfo "Success"
                     ("Split into " +:+ str_of_nat (length files)
                      +:+ " pages successfully!")) s) as (s' & box & Hrun).
    exists s', (Some box). split; [exact Hrun|]. split; [|eauto].
    intros [H|H]; contradiction.
  - unfold ToolsPage.run_rotate.
    destruct (String.eqb_spec file "") as [->|Hfile].
    { exists s, None. split; [reflexivity|]. split; [auto|]. intros H. contradiction. }
    destruct (String.eqb_spec out "") as [->|Hout].
    { exists s, None. split; [reflexivity|]. split; [auto|]. intros _ H. contradiction. }
    destruct (handler_catches_all
                (PDFManager.rotate_pdf (PStr file) (PStr out) rotation_var)
                (fun _ => ToolsPage.showinfo "Success" "PDF Rotated successfully!")
                s) as (s' & box & Hrun).
    exists s', (Some box). split; [exact Hrun|]. split; [|eauto].
    intros [H|H]; contradiction.
Qed.

Lemma Forall2_exists {X Y} (R : X -> Y -> Prop) (l : list X) :
  (forall x, exists y, R x y) -> exists k, Forall2 R l k.
Proof.
  intros Hex. induction l as [|x l [k IH]]; [exists []; constructor|].
  destruct (Hex x) as [y Hy]. exists (y :: k). constructor; assumption.
Qed.



End tools_page.


